(** * The documentation store of [mcp_server.py]

    A shallow embedding of the four tools of the server ([list_docs],
    [read_docs], [save_docs], [remove_docs]) over a model of the file
    system they act on, and the properties of the store proved on it.

    Conventions of the embedding.
    - A Python [str] is a Rocq [string]; each character stands for the code
      point of the same number, so the strings of the model are the Python
      strings over the code points below 256.
    - The interpreter is CPython 3.11 on a POSIX system with case-sensitive
      file names and no symbolic links: [pathlib], [open], [os.remove] and
      the text layer behave as they do there.
    - The file system is a finite map from absolute paths to nodes; every
      tool is a computation in a state-and-exception monad over it, and every
      system call it makes is appended to a log. *)

From Stdlib Require Import String Ascii List Bool Arith Lia.
From stdpp Require Import gmap strings list fin_maps.

(** ** Python strings *)

Module PyStr.

(** The characters the source writes as escapes. *)
Definition LF : ascii := ascii_of_nat 10.
Definition CR : ascii := ascii_of_nat 13.
Definition NUL : ascii := ascii_of_nat 0.
Definition NL : string := String LF EmptyString.

Fixpoint map_chars (f : ascii → ascii) (s : string) : string :=
  match s with
  | EmptyString => EmptyString
  | String a r => String (f a) (map_chars f r)
  end.

(** [str.lower] on one code point below 256: the letters [A]-[Z] and the
    Latin-1 capitals U+00C0-U+00DE (U+00D7, the multiplication sign, apart)
    move up by 32; nothing else changes. (Above 255, which the strings of
    the model do not reach, [str.lower] can change the length of a text and
    look at the context of a letter.) *)
Definition lower_char (a : ascii) : ascii :=
  let n := nat_of_ascii a in
  if ((65 <=? n) && (n <=? 90))
     || ((192 <=? n) && (n <=? 222) && negb (n =? 215))
  then ascii_of_nat (n + 32) else a.

Definition lower (s : string) : string := map_chars lower_char s.

(** [s.replace(old, new)] for one-character [old] and [new]. *)
Definition replace_char (old new : ascii) (s : string) : string :=
  map_chars (λ a, if Ascii.eqb a old then new else a) s.

(** [s.endswith(suffix)] *)
Definition endswith (s suffix : string) : bool :=
  let n := String.length s in
  let k := String.length suffix in
  (k <=? n) && String.eqb (substring (n - k) k s) suffix.

(** [s.startswith(prefix)] *)
Definition startswith (s pre : string) : bool := String.prefix pre s.

(** [str.isspace] on one code point below 256. *)
Definition isspace (a : ascii) : bool :=
  let n := nat_of_ascii a in
  ((9 <=? n) && (n <=? 13)) || ((28 <=? n) && (n <=? 32))
  || (n =? 133) || (n =? 160).

Fixpoint lstrip (s : string) : string :=
  match s with
  | EmptyString => EmptyString
  | String a r => if isspace a then lstrip r else s
  end.

Fixpoint rstrip (s : string) : string :=
  match s with
  | EmptyString => EmptyString
  | String a r =>
      match rstrip r with
      | EmptyString => if isspace a then EmptyString else String a EmptyString
      | r' => String a r'
      end
  end.

(** [s.strip()] *)
Definition strip (s : string) : string := rstrip (lstrip s).

(** [s * n] *)
Fixpoint repeat (s : string) (n : nat) : string :=
  match n with
  | O => EmptyString
  | S k => s +:+ repeat s k
  end.

(** [s.split(sep)] for a one-character [sep]: the pieces between the
    separators, empty pieces included. *)
Fixpoint split_on (sep : ascii) (s : string) : list string :=
  match s with
  | EmptyString => [EmptyString]
  | String a r =>
      if Ascii.eqb a sep then EmptyString :: split_on sep r
      else match split_on sep r with
           | [] => [String a EmptyString]
           | p :: ps => String a p :: ps
           end
  end.

(** [sep.join(parts)] *)
Fixpoint join (sep : string) (parts : list string) : string :=
  match parts with
  | [] => EmptyString
  | [p] => p
  | p :: ps => p +:+ sep +:+ join sep ps
  end.

Fixpoint contains_char (c : ascii) (s : string) : bool :=
  match s with
  | EmptyString => false
  | String a r => Ascii.eqb a c || contains_char c r
  end.

(** Length in bytes of the UTF-8 encoding: one byte below 128, two for
    the code points 128-255. *)
Fixpoint utf8_length (s : string) : nat :=
  match s with
  | EmptyString => 0
  | String a r => (if nat_of_ascii a <? 128 then 1 else 2) + utf8_length r
  end.

(** What a text file opened for reading with [newline=None] hands back:
    every ["\r\n"] and every lone ["\r"] has become ["\n"]. *)
Fixpoint universal_newlines (s : string) : string :=
  match s with
  | EmptyString => EmptyString
  | String a r =>
      if Ascii.eqb a CR then
        match r with
        | String b r' =>
            if Ascii.eqb b LF then String LF (universal_newlines r')
            else String LF (universal_newlines r)
        | EmptyString => String LF EmptyString
        end
      else String a (universal_newlines r)
  end.

End PyStr.

Import PyStr.

(** ** The file system *)

(** The error numbers the model produces, and the two more that
    [pathlib._IGNORED_ERRNOS] names. *)
Inductive errno :=
  ENOENT | ENOTDIR | EACCES | ENAMETOOLONG | EISDIR | EBADF | ELOOP.

(** A path is the list of its components below the root; [".."] may occur
    in it until the system resolves it. *)
Abbreviation path := (list string).

(** The exceptions of the model: [OSError] with its [errno] and [filename],
    [ValueError] (a file name with an embedded null character) and
    [UnicodeDecodeError]. *)
Inductive exn :=
| OSError (e : errno) (filename : path)
| ValueError
| UnicodeDecodeError.

(** The bytes of a file: the UTF-8 encoding of a text, or bytes that are not
    valid UTF-8. *)
Inductive fdata := Utf8 (text : string) | Garbled.

(** A node carries the permission bits of the user the server runs as. *)
Inductive node :=
| NFile (r w : bool) (data : fdata)
| NDir (r w x : bool).

Abbreviation fs := (gmap (list string) node).

Inductive call :=
| Stat (p : path)
| Scandir (p : path)
| OpenRead (p : path)
| OpenWrite (p : path)
| Unlink (p : path).

Record world := World { w_fs : fs; w_log : list call }.

#[global] Instance errno_eq_dec : EqDecision errno.
Proof. solve_decision. Defined.
#[global] Instance fdata_eq_dec : EqDecision fdata.
Proof. solve_decision. Defined.
#[global] Instance node_eq_dec : EqDecision node.
Proof. solve_decision. Defined.

Definition NAME_MAX : nat := 255.

Definition parent (q : path) : path := removelast q.

Definition has_nul (p : path) : bool := existsb (contains_char NUL) p.

(** Path resolution: from the directory [cur], follow the components one by
    one. Looking a component up needs [cur] to be a directory with search
    permission; [".."] goes to the parent (the root is its own parent). The
    result is the absolute path the name denotes, whether or not a node is
    there. The length of a component is checked against [NAME_MAX]; the
    paths of the model stay below the limit of the system on a whole
    path. *)
Fixpoint walk (f : fs) (cur : path) (comps : list string) : errno + path :=
  match comps with
  | [] => inr cur
  | c :: rest =>
      match f !! cur with
      | None => inl ENOENT
      | Some (NFile _ _ _) => inl ENOTDIR
      | Some (NDir _ _ x) =>
          if negb x then inl EACCES
          else if String.eqb c ".." then walk f (parent cur) rest
          else if NAME_MAX <? utf8_length c then inl ENAMETOOLONG
          else walk f (cur ++ [c]) rest
      end
  end.

Definition resolve (f : fs) (p : path) : errno + path := walk f [] p.

(** The node a path denotes: what [stat] finds. *)
Definition lookup_path (f : fs) (p : path) : errno + node :=
  match resolve f p with
  | inl e => inl e
  | inr q => match f !! q with
             | None => inl ENOENT
             | Some n => inr n
             end
  end.

(** Opening for reading: the bytes of a readable file. *)
Definition sys_open_read (f : fs) (p : path) : errno + fdata :=
  match lookup_path f p with
  | inl e => inl e
  | inr (NDir _ _ _) => inl EISDIR
  | inr (NFile r _ d) => if negb r then inl EACCES else inr d
  end.

(** Opening for writing with creation and truncation, then writing
    [content]: an existing file keeps its mode and gets the new bytes, a new
    one is created with mode [rw] in its directory, which must be
    writable. *)
Definition sys_write (f : fs) (p : path) (content : string) : errno + fs :=
  match resolve f p with
  | inl e => inl e
  | inr q =>
      match f !! q with
      | Some (NDir _ _ _) => inl EISDIR
      | Some (NFile r w _) =>
          if negb w then inl EACCES
          else inr (<[q := NFile r w (Utf8 content)]> f)
      | None =>
          match f !! parent q with
          | Some (NDir _ w _) =>
              if negb w then inl EACCES
              else inr (<[q := NFile true true (Utf8 content)]> f)
          | _ => inl ENOENT
          end
      end
  end.

(** [unlink]: the directory of the file must be writable. *)
Definition sys_unlink (f : fs) (p : path) : errno + fs :=
  match resolve f p with
  | inl e => inl e
  | inr q =>
      match f !! q with
      | None => inl ENOENT
      | Some n =>
          match f !! parent q with
          | Some (NDir _ true _) =>
              match n with
              | NDir _ _ _ => inl EISDIR
              | NFile _ _ _ => inr (delete q f)
              end
          | _ => inl EACCES
          end
      end
  end.

(** The names of the entries of the directory at [q]. *)
Definition entry_of (q : path) (k : path) : option string :=
  match reverse k with
  | [] => None
  | n :: rq => if decide (reverse rq = q) then Some n else None
  end.

Definition entries (f : fs) (q : path) : list string :=
  omap (λ kn : path * node, entry_of q kn.1) (map_to_list f).

(** [scandir]: the entry names of a readable directory, in the order the
    directory yields them. *)
Definition sys_scandir (f : fs) (p : path) : errno + list string :=
  match resolve f p with
  | inl e => inl e
  | inr q =>
      match f !! q with
      | None => inl ENOENT
      | Some (NFile _ _ _) => inl ENOTDIR
      | Some (NDir r _ _) => if negb r then inl EACCES else inr (entries f q)
      end
  end.

(** ** The monad of the tools: state, exceptions and the log of calls *)

Inductive outcome (A : Type) :=
| Ret (a : A)
| Raise (e : exn).
Arguments Ret {A} a.
Arguments Raise {A} e.

Definition M (A : Type) : Type := world → outcome A * world.

#[global] Instance M_ret : MRet M := λ A a w, (Ret a, w).
#[global] Instance M_bind : MBind M := λ A B k m w,
  match m w with
  | (Ret a, w') => k a w'
  | (Raise e, w') => (Raise e, w')
  end.

Definition raise {A} (e : exn) : M A := λ w, (Raise e, w).

(** [try: body] / [except Exception as e: handler e] *)
Definition try_except {A} (body : M A) (handler : exn → M A) : M A := λ w,
  match body w with
  | (Ret a, w') => (Ret a, w')
  | (Raise e, w') => handler e w'
  end.

Definition logged (c : call) (w : world) : world :=
  World (w_fs w) (w_log w ++ [c]).

Definition get_fs : M fs := λ w, (Ret (w_fs w), w).
Definition put_fs (f : fs) : M unit := λ w, (Ret tt, World f (w_log w)).
Definition log (c : call) : M unit := λ w, (Ret tt, logged c w).

(** The result of a system call, as Python hands it on. *)
Definition syscall {A} (p : path) (r : errno + A) : M A :=
  match r with
  | inl e => raise (OSError e p)
  | inr a => mret a
  end.

(** A path with a null character is refused before any call is made. *)
Definition check_nul (p : path) : M unit :=
  if has_nul p then raise ValueError else mret tt.

(** [os.stat(p)] *)
Definition os_stat (p : path) : M node :=
  check_nul p;;
  log (Stat p);;
  f ← get_fs;
  syscall p (lookup_path f p).

(** [pathlib._ignore_error] *)
Definition ignore_error (e : errno) : bool :=
  match e with
  | ENOENT | ENOTDIR | EBADF | ELOOP => true
  | _ => false
  end.

(** The handler [Path.exists] and [Path.is_dir] share: the errors of
    [_IGNORED_ERRNOS] and [ValueError] mean "no"; any other exception is
    raised again. *)
Definition ignore_or_raise (e : exn) : M bool :=
  match e with
  | OSError en _ => if ignore_error en then mret false else raise e
  | ValueError => mret false
  | _ => raise e
  end.

(** [Path.exists] *)
Definition path_exists (p : path) : M bool :=
  try_except (os_stat p;; mret true) ignore_or_raise.

(** [Path.is_dir] *)
Definition path_is_dir (p : path) : M bool :=
  try_except (n ← os_stat p;
              mret (match n with NDir _ _ _ => true | _ => false end))
    ignore_or_raise.

(** Decoding the bytes of a file as UTF-8 text with [newline=None]. *)
Definition decode_text (d : fdata) : M string :=
  match d with
  | Utf8 t => mret (universal_newlines t)
  | Garbled => raise UnicodeDecodeError
  end.

(** [with open(p, "r", encoding="utf-8") as f: f.read()] *)
Definition read_text (p : path) : M string :=
  check_nul p;;
  log (OpenRead p);;
  f ← get_fs;
  d ← syscall p (sys_open_read f p);
  decode_text d.

(** [with open(p, "w", encoding="utf-8") as f: f.write(content)]; on a
    POSIX system the text layer writes ["\n"] as it is. *)
Definition write_text (p : path) (content : string) : M unit :=
  check_nul p;;
  log (OpenWrite p);;
  f ← get_fs;
  f' ← syscall p (sys_write f p content);
  put_fs f'.

(** [os.remove(p)] *)
Definition os_remove (p : path) : M unit :=
  check_nul p;;
  log (Unlink p);;
  f ← get_fs;
  f' ← syscall p (sys_unlink f p);
  put_fs f'.

(** [os.scandir(p)] *)
Definition os_scandir (p : path) : M (list string) :=
  check_nul p;;
  log (Scandir p);;
  f ← get_fs;
  syscall p (sys_scandir f p).

(** [base.glob("*.md")], as [_WildcardSelector] does it: nothing for a
    [base] that is no directory; the entries whose name matches, as paths
    below [base]; a [PermissionError] of the scan ends the iteration
    silently. *)
Definition glob_md (base : path) : M (list path) :=
  d ← path_is_dir base;
  if negb d then mret []
  else
    try_except
      (names ← os_scandir base;
       mret ((λ n, base ++ [n]) <$> List.filter (λ n, endswith n ".md") names))
      (λ e, match e with
            | OSError EACCES _ => mret []
            | _ => raise e
            end).

(** ** Paths as [pathlib] builds them *)

(** The components of a path written as a string: empty components and
    ["."] are dropped, [".."] is kept. *)
Definition parse_parts (s : string) : list string :=
  List.filter (λ c, negb (String.eqb c "") && negb (String.eqb c "."))
    (split_on "/" s).

(** [base / s]: an absolute [s] replaces [base]. *)
Definition truediv (base : path) (s : string) : path :=
  if startswith s "/" then parse_parts s else base ++ parse_parts s.

(** [str(p)] *)
Definition path_str (p : path) : string := "/" +:+ join "/" p.

(** [p.name] *)
Definition path_name (p : path) : string := List.last p "".

(** ** The server *)

(** [text.lower().replace(" ", "-")] *)
Definition kebab_case (text : string) : string :=
  replace_char " " "-" (lower text).

(** [if not filename.endswith(".md"): filename += ".md"], which each of
    [read_docs], [save_docs] and [remove_docs] does on its own. *)
Definition ensure_md (filename : string) : string :=
  if negb (endswith filename ".md") then filename +:+ ".md" else filename.

(** The name [save_docs] stores under, in the words of the specification:
    each character in lowercase, each space replaced by a hyphen, then the
    suffix [.md] unless the result already ends in it. *)
Definition kebab_form_char (a : ascii) : ascii :=
  if Ascii.eqb a " " then "-"%char else lower_char a.

Definition kebab_form (name : string) : string := map_chars kebab_form_char name.

Definition stored_name (name : string) : string :=
  if endswith (kebab_form name) ".md" then kebab_form name
  else kebab_form name +:+ ".md".

(** ** Observations of a file system *)

(** No node is at [p]: the lookup ends with "no such file or directory" or
    in a component that is no directory. *)
Definition missing (f : fs) (p : path) : bool :=
  match lookup_path f p with
  | inl ENOENT | inl ENOTDIR => true
  | _ => false
  end.

(** [p] is not a file the server may not read. *)
Definition readable_or_absent (f : fs) (p : path) : bool :=
  match lookup_path f p with
  | inr (NFile false _ _) => false
  | _ => true
  end.

(** [q] is free or a writable file. *)
Definition can_store (f : fs) (q : path) : bool :=
  match f !! q with
  | None => true
  | Some (NFile _ w _) => w
  | Some (NDir _ _ _) => false
  end.

(** [q] can be opened for writing: it is a writable file, or a free place
    in a writable directory. *)
Definition can_write_at (f : fs) (q : path) : bool :=
  match f !! q with
  | Some (NFile _ w _) => w
  | Some (NDir _ _ _) => false
  | None => match f !! parent q with
            | Some (NDir _ w _) => w
            | _ => false
            end
  end.

(** The read permission of what a write leaves at [q]: that of the file
    that was there, or of a new file. *)
Definition read_bit (f : fs) (q : path) : bool :=
  match f !! q with
  | Some (NFile r _ _) => r
  | _ => true
  end.

(** The directory that holds what [p] denotes is writable. *)
Definition parent_writable (f : fs) (p : path) : bool :=
  match resolve f p with
  | inr q => match f !! parent q with
             | Some (NDir _ w _) => w
             | _ => false
             end
  | inl _ => false
  end.

(** The world after [n] runs of [m] in a row. *)
Fixpoint repeat_call {A} (m : M A) (n : nat) (w : world) : world :=
  match n with
  | O => w
  | S k => repeat_call m k (m w).2
  end.

(** What [Path.exists] answers on a file system: [None] when it raises. *)
Definition exists_on (f : fs) (p : path) : option bool :=
  if has_nul p then Some false
  else match lookup_path f p with
       | inr _ => Some true
       | inl e => if ignore_error e then Some false else None
       end.

(** What reading the text at [p] gives on a file system. *)
Definition read_on (f : fs) (p : path) : exn + string :=
  if has_nul p then inl ValueError
  else match sys_open_read f p with
       | inl e => inl (OSError e p)
       | inr (Utf8 t) => inr (universal_newlines t)
       | inr Garbled => inl UnicodeDecodeError
       end.

Definition concat_all (l : list string) : string :=
  fold_right String.append "" l.

(** ** Creating the store *)

(** What [os.mkdir] and [os.makedirs] raise: [FileExistsError] is told apart
    from the other [OSError]s, as [makedirs] does. *)
Inductive mk_error :=
| MkExists
| MkOSError (e : errno)
| MkValueError.

(** [os.mkdir(p)]: the directory is created with every permission of the
    owner, in a directory that must be writable. *)
Definition sys_mkdir (f : fs) (p : path) : mk_error + fs :=
  if has_nul p then inl MkValueError
  else match resolve f p with
       | inl e => inl (MkOSError e)
       | inr q =>
           match f !! q with
           | Some _ => inl MkExists
           | None =>
               match f !! parent q with
               | Some (NDir _ w _) =>
                   if negb w then inl (MkOSError EACCES)
                   else inr (<[q := NDir true true true]> f)
               | _ => inl (MkOSError ENOENT)
               end
           end
       end.

(** [os.path.exists(p)]: any [OSError] or [ValueError] of the [stat] means
    "no". *)
Definition ospath_exists (f : fs) (p : path) : bool :=
  negb (has_nul p)
  && match lookup_path f p with
     | inr _ => true
     | inl _ => false
     end.

(** [os.path.isdir(p)] *)
Definition ospath_isdir (f : fs) (p : path) : bool :=
  negb (has_nul p)
  && match lookup_path f p with
     | inr (NDir _ _ _) => true
     | _ => false
     end.

(** The end of [makedirs] with [exist_ok=True]: [mkdir], whose [OSError] is
    dropped when the name is a directory. The result is the file system
    and the exception raised, if any. *)
Definition mkdir_or_isdir (f : fs) (name : path) : fs * option mk_error :=
  match sys_mkdir f name with
  | inr f' => (f', None)
  | inl MkValueError => (f, Some MkValueError)
  | inl e => if ospath_isdir f name then (f, None) else (f, Some e)
  end.

(** [os.makedirs(name, exist_ok=True)] on the components of [name] in
    reverse, last component first (the components are not empty, so [head]
    and [tail] of the source are both there below the root): a missing
    [head] is made first, a [FileExistsError] of that call being passed
    over. *)
Fixpoint makedirs_rev (f : fs) (rname : list string) : fs * option mk_error :=
  match rname with
  | [] => mkdir_or_isdir f []
  | tail :: rhead =>
      if negb (ospath_exists f (reverse rhead)) then
        match makedirs_rev f rhead with
        | (f1, None) | (f1, Some MkExists) =>
            if String.eqb tail "." then (f1, None)
            else mkdir_or_isdir f1 (reverse (tail :: rhead))
        | (f1, Some e) => (f1, Some e)
        end
      else mkdir_or_isdir f (reverse (tail :: rhead))
  end.

Definition makedirs (f : fs) (name : path) : fs * option mk_error :=
  makedirs_rev f (reverse name).

(** ** Example worlds *)

(** A server installed in [/srv]: the store [/srv/docs] with one document,
    and a file next to the store. *)
Definition demo_fs : fs :=
  <[ ["srv"; "docs"; "a.md"] := NFile true true (Utf8 "alpha") ]>
  (<[ ["srv"; "x.md"] := NFile true true (Utf8 "top secret") ]>
  (<[ ["srv"; "docs"] := NDir true true true ]>
  (<[ ["srv"] := NDir true true true ]>
  {[ [] := NDir true false true ]}))).

Definition demo : world := World demo_fs [].

(** The same installation with an empty store. *)
Definition fresh_fs : fs :=
  <[ ["srv"; "docs"] := NDir true true true ]>
  (<[ ["srv"] := NDir true true true ]>
  {[ [] := NDir true false true ]}).

Definition fresh : world := World fresh_fs [].

(** The store of [demo] with [a.md] write-only ([chmod 200]). *)
Definition writeonly_fs : fs :=
  <[ ["srv"; "docs"; "a.md"] := NFile false true (Utf8 "alpha") ]> demo_fs.

Definition writeonly : world := World writeonly_fs [].

(** The store of [demo] after [chmod a-w docs]: documents can be overwritten
    but not created or deleted. *)
Definition readonly_fs : fs := <[ ["srv"; "docs"] := NDir true false true ]> demo_fs.

Definition readonly : world := World readonly_fs [].

(** The store of [demo] after [chmod a-x docs]. *)
Definition locked_fs : fs := <[ ["srv"; "docs"] := NDir true true false ]> demo_fs.

Definition locked : world := World locked_fs [].

(** The installation before the server has run: no store yet. *)
Definition bare_fs : fs :=
  <[ ["srv"] := NDir true true true ]> {[ [] := NDir true false true ]}.

(** ... and with a file called [docs] where the store should be. *)
Definition blocked_fs : fs :=
  <[ ["srv"; "docs"] := NFile true true (Utf8 "not a directory") ]> bare_fs.

Definition demo_str (e : exn) : string :=
  match e with
  | OSError _ _ => "OSError"
  | ValueError => "ValueError"
  | UnicodeDecodeError => "UnicodeDecodeError"
  end.

Section Server.

(** The directory the script is installed in, and the text [str(e)] of an
    exception, which the interpreter and the system produce. *)
Variable SCRIPT_DIR : path.
Variable str_exn : exn → string.

Definition DOCS_DIR : path := truediv SCRIPT_DIR "docs".

Definition list_docs : M string :=
  doc_files ← glob_md DOCS_DIR;
  if bool_decide (doc_files = []) then mret "No documentation files found."
  else
    mret (fold_left
            (λ result doc_file, result +:+ "- " +:+ path_name doc_file +:+ NL)
            doc_files
            ("Available documentation files:" +:+ NL +:+ NL)).

(** The body of the [for] loop of [read_docs], with [result] as the
    accumulator. *)
Fixpoint read_loop (filenames : list string) (result : string) : M string :=
  match filenames with
  | [] => mret result
  | filename :: rest =>
      let filename := ensure_md filename in
      let file_path := truediv DOCS_DIR filename in
      found ← path_exists file_path;
      if negb found then
        read_loop rest
          (result +:+ "Error: File '" +:+ filename +:+ "' not found." +:+ NL +:+ NL)
      else
        result ← try_except
          (content ← read_text file_path;
           mret (result +:+ "## " +:+ filename +:+ NL +:+ NL +:+ content
                 +:+ NL +:+ NL +:+ repeat "=" 50 +:+ NL +:+ NL))
          (λ e, mret (result +:+ "Error reading '" +:+ filename +:+ "': "
                      +:+ str_exn e +:+ NL +:+ NL));
        read_loop rest result
  end.

Definition read_docs (filenames : list string) : M string :=
  match filenames with
  | [] => mret "Error: No filenames provided."
  | _ => result ← read_loop filenames ""; mret (strip result)
  end.

Definition save_docs (filename content : string) : M string :=
  let kebab_filename := ensure_md (kebab_case filename) in
  let file_path := truediv DOCS_DIR kebab_filename in
  try_except
    (write_text file_path content;;
     mret ("Successfully saved documentation to " +:+ kebab_filename
           +:+ " in " +:+ path_str DOCS_DIR))
    (λ e, mret ("Error saving documentation: " +:+ str_exn e)).

Definition remove_docs (filename : string) : M string :=
  let filename := ensure_md filename in
  let file_path := truediv DOCS_DIR filename in
  found ← path_exists file_path;
  if negb found then mret ("Error: File '" +:+ filename +:+ "' not found.")
  else
    try_except
      (os_remove file_path;;
       mret ("Successfully removed " +:+ filename +:+ " from "
             +:+ path_str DOCS_DIR))
      (λ e, mret ("Error removing documentation: " +:+ str_exn e)).

(** [os.makedirs(DOCS_DIR, exist_ok=True)], which the module runs when it
    is loaded. *)
Definition startup (f : fs) : fs * option mk_error := makedirs f DOCS_DIR.

(** The messages of the tools. *)
Definition not_found_msg (filename : string) : string :=
  "Error: File '" +:+ filename +:+ "' not found.".

Definition saved_msg (filename : string) : string :=
  "Successfully saved documentation to " +:+ filename +:+ " in "
  +:+ path_str DOCS_DIR.

Definition removed_msg (filename : string) : string :=
  "Successfully removed " +:+ filename +:+ " from " +:+ path_str DOCS_DIR.

(** The path a tool acts on for the name it is given, [save_docs] apart. *)
Definition target (name : string) : path := truediv DOCS_DIR (ensure_md name).

(** The section one requested name adds to the result of [read_docs] on a
    file system where its existence check answers. *)
Definition framed (filename content : string) : string :=
  "## " +:+ filename +:+ NL +:+ NL +:+ content +:+ NL +:+ NL
  +:+ repeat "=" 50 +:+ NL +:+ NL.

Definition not_found_section (filename : string) : string :=
  "Error: File '" +:+ filename +:+ "' not found." +:+ NL +:+ NL.

Definition read_error (filename : string) (e : exn) : string :=
  "Error reading '" +:+ filename +:+ "': " +:+ str_exn e +:+ NL +:+ NL.

Definition section_of (f : fs) (name : string) : string :=
  let filename := ensure_md name in
  match exists_on f (target name) with
  | Some true =>
      match read_on f (target name) with
      | inr content => framed filename content
      | inl e => read_error filename e
      end
  | _ => not_found_section filename
  end.

Definition save_error (e : exn) : string :=
  "Error saving documentation: " +:+ str_exn e.

Definition remove_error (e : exn) : string :=
  "Error removing documentation: " +:+ str_exn e.

(** The store directory is where the server put it: a searchable, writable
    directory that the path [DOCS_DIR] denotes. *)
Definition store_ready (f : fs) : Prop :=
  has_nul DOCS_DIR = false
  ∧ resolve f DOCS_DIR = inr DOCS_DIR
  ∧ ∃ r, f !! DOCS_DIR = Some (NDir r true true).

(** ... and so is the directory of the script. *)
Definition script_dir_ready (f : fs) : Prop :=
  ∃ r, f !! SCRIPT_DIR = Some (NDir r true true).

(** [f'] has every directory of [f], with the same mode. *)
Definition dirs_preserved (f f' : fs) : Prop :=
  ∀ q r w x, f !! q = Some (NDir r w x) → f' !! q = Some (NDir r w x).

(** ** Strings *)

Lemma append_cons (x : ascii) (a b : string) :
  String x a +:+ b = String x (a +:+ b).
Proof. reflexivity. Qed.

Lemma append_nil_l (b : string) : "" +:+ b = b.
Proof. reflexivity. Qed.

Lemma append_assoc (a b c : string) : (a +:+ b) +:+ c = a +:+ b +:+ c.
Proof.
  induction a as [|x a IH]; [reflexivity|].
  rewrite !append_cons. f_equal. exact IH.
Qed.

Lemma append_nil_r (a : string) : a +:+ "" = a.
Proof.
  induction a as [|x a IH]; [reflexivity|].
  rewrite append_cons. f_equal. exact IH.
Qed.

Lemma map_chars_ext (g h : ascii → ascii) (s : string) :
  (∀ a, g a = h a) → map_chars g s = map_chars h s.
Proof. intros E. induction s as [|x s IH]; simpl; [reflexivity | by rewrite E, IH]. Qed.

Lemma map_chars_compose (g h : ascii → ascii) (s : string) :
  map_chars g (map_chars h s) = map_chars (λ a, g (h a)) s.
Proof. induction s as [|x s IH]; simpl; [reflexivity | by rewrite IH]. Qed.

Lemma kebab_char_agree (a : ascii) :
  (if Ascii.eqb (lower_char a) " " then "-"%char else lower_char a)
  = kebab_form_char a.
Proof. destruct a as [[] [] [] [] [] [] [] []]; reflexivity. Qed.

(** The source's [kebab_case] is the kebab form of the specification. *)
Lemma kebab_case_form (s : string) : kebab_case s = kebab_form s.
Proof.
  unfold kebab_case, kebab_form, replace_char, lower.
  rewrite map_chars_compose. apply map_chars_ext, kebab_char_agree.
Qed.

Lemma ensure_md_stored (name : string) :
  ensure_md (kebab_case name) = stored_name name.
Proof.
  unfold ensure_md, stored_name. rewrite kebab_case_form.
  by destruct (endswith (kebab_form name) ".md").
Qed.

Lemma universal_newlines_id (s : string) :
  contains_char CR s = false → universal_newlines s = s.
Proof.
  induction s as [|a s IH]; simpl; [done|].
  intros [Ha Hs]%orb_false_elim. rewrite Ha. by rewrite IH.
Qed.

Lemma rstrip_app (a b : string) :
  rstrip b ≠ "" → rstrip (a +:+ b) = a +:+ rstrip b.
Proof.
  intros Hb. induction a as [|x a IH]; [reflexivity|].
  rewrite !append_cons. simpl. rewrite IH.
  destruct a; [|reflexivity].
  rewrite append_nil_l. by destruct (rstrip b).
Qed.

Lemma rstrip_nonempty_app (a b : string) :
  rstrip b ≠ "" → rstrip (a +:+ b) ≠ "".
Proof.
  intros Hb. rewrite rstrip_app by done.
  destruct a; [by rewrite append_nil_l | by rewrite append_cons].
Qed.

(** ** Path resolution *)

Lemma walk_app (f : fs) (cur : path) (a b : list string) :
  walk f cur (a ++ b)
  = match walk f cur a with
    | inl e => inl e
    | inr q => walk f q b
    end.
Proof.
  revert cur. induction a as [|c a IH]; intros cur; [reflexivity|].
  simpl. destruct (f !! cur) as [[r w d|r w x]|]; try reflexivity.
  destruct (negb x); [reflexivity|].
  destruct (String.eqb c ".."); [apply IH|].
  destruct (NAME_MAX <? utf8_length c); [reflexivity | apply IH].
Qed.

Lemma walk_preserved (f f' : fs) (comps : list string) :
  dirs_preserved f f' →
  ∀ cur q, walk f cur comps = inr q → walk f' cur comps = inr q.
Proof.
  intros Hd. induction comps as [|c rest IH]; intros cur q; [done|].
  simpl. destruct (f !! cur) as [[r w d|r w x]|] eqn:Hcur; try done.
  rewrite (Hd _ _ _ _ Hcur).
  destruct (negb x); [done|].
  destruct (String.eqb c ".."); [apply IH|].
  destruct (NAME_MAX <? utf8_length c); [done | apply IH].
Qed.

Lemma dirs_preserved_insert_file (f : fs) (q : path) (r w : bool) (d : fdata) :
  can_store f q = true → dirs_preserved f (<[q := NFile r w d]> f).
Proof.
  unfold can_store. intros Hq k r' w' x' Hk.
  destruct (decide (q = k)) as [->|Hne].
  - rewrite Hk in Hq. done.
  - by rewrite lookup_insert_ne.
Qed.

Lemma dirs_preserved_delete_file (f : fs) (q : path) (r w : bool) (d : fdata) :
  f !! q = Some (NFile r w d) → dirs_preserved f (delete q f).
Proof.
  intros Hq k r' w' x' Hk.
  destruct (decide (q = k)) as [->|Hne].
  - rewrite Hk in Hq. done.
  - by rewrite lookup_delete_ne.
Qed.

(** ** The system calls *)

(** A successful write: the path resolves to a free place or a writable
    file, which then holds the content; the mode of an existing file is
    kept and a new file is readable. *)
Lemma sys_write_inv (f f' : fs) (p : path) (c : string) :
  sys_write f p c = inr f' →
  ∃ q r, resolve f p = inr q ∧ can_store f q = true
         ∧ f' = <[q := NFile r true (Utf8 c)]> f
         ∧ (∀ r0 w0 d0, f !! q = Some (NFile r0 w0 d0) → r = r0)
         ∧ (f !! q = None → r = true).
Proof.
  unfold sys_write, can_store. destruct (resolve f p) as [e|q]; [done|].
  destruct (f !! q) as [[r w d|r w x]|] eqn:Hq; [| done |].
  - destruct w; simpl; [|done]. intros [= <-].
    exists q, r. rewrite Hq. split_and!; try done. by intros ? ? ? [= -> _ _].
  - destruct (f !! parent q) as [[?|? w ?]|]; try done.
    destruct w; simpl; [|done]. intros [= <-].
    exists q, true. rewrite Hq. split_and!; done.
Qed.

Lemma sys_write_resolve (f f' : fs) (p : path) (c : string) :
  sys_write f p c = inr f' →
  ∀ p' q', resolve f p' = inr q' → resolve f' p' = inr q'.
Proof.
  intros (q & r & _ & Hq & -> & _)%sys_write_inv p' q'.
  apply walk_preserved. by apply dirs_preserved_insert_file.
Qed.

(** Writing the same content again changes nothing. *)
Lemma sys_write_again (f f' : fs) (p : path) (c : string) :
  sys_write f p c = inr f' → sys_write f' p c = inr f'.
Proof.
  intros Hw. pose proof (sys_write_resolve _ _ _ _ Hw) as Hres.
  destruct (sys_write_inv _ _ _ _ Hw) as (q & r & Hq & _ & -> & _).
  unfold sys_write. rewrite (Hres _ _ Hq).
  rewrite lookup_insert_eq. simpl. by rewrite insert_insert_eq.
Qed.

Lemma sys_unlink_inv (f f' : fs) (p : path) :
  sys_unlink f p = inr f' →
  ∃ q r w d, resolve f p = inr q ∧ f !! q = Some (NFile r w d)
             ∧ f' = delete q f.
Proof.
  unfold sys_unlink. destruct (resolve f p) as [e|q]; [done|].
  destruct (f !! q) as [n|] eqn:Hq; [|done].
  destruct (f !! parent q) as [[?|? [] ?]|]; try done.
  destruct n as [fr fw fd|]; [|done]. intros [= <-].
  by exists q, fr, fw, fd.
Qed.

Lemma sys_unlink_resolve (f f' : fs) (p : path) :
  sys_unlink f p = inr f' →
  ∀ p' q', resolve f p' = inr q' → resolve f' p' = inr q'.
Proof.
  intros (q & r & w & d & _ & Hq & ->)%sys_unlink_inv p' q'.
  apply walk_preserved. by eapply dirs_preserved_delete_file.
Qed.

(** ** Running the primitives *)

Lemma path_exists_run (p : path) (w : world) :
  path_exists p w
  = if has_nul p then (Ret false, w)
    else match lookup_path (w_fs w) p with
         | inr _ => (Ret true, logged (Stat p) w)
         | inl e => if ignore_error e then (Ret false, logged (Stat p) w)
                    else (Raise (OSError e p), logged (Stat p) w)
         end.
Proof.
  unfold path_exists, try_except, os_stat, check_nul, mbind, M_bind.
  destruct (has_nul p); [reflexivity|]. simpl.
  destruct (lookup_path (w_fs w) p) as [e|n]; simpl; [|reflexivity].
  by destruct (ignore_error e).
Qed.

Lemma read_text_run (p : path) (w : world) :
  read_text p w
  = if has_nul p then (Raise ValueError, w)
    else match sys_open_read (w_fs w) p with
         | inl e => (Raise (OSError e p), logged (OpenRead p) w)
         | inr (Utf8 t) => (Ret (universal_newlines t), logged (OpenRead p) w)
         | inr Garbled => (Raise UnicodeDecodeError, logged (OpenRead p) w)
         end.
Proof.
  unfold read_text, check_nul, mbind, M_bind.
  destruct (has_nul p); [reflexivity|]. simpl.
  destruct (sys_open_read (w_fs w) p) as [e|[t|]]; reflexivity.
Qed.

Lemma write_text_run (p : path) (c : string) (w : world) :
  write_text p c w
  = if has_nul p then (Raise ValueError, w)
    else match sys_write (w_fs w) p c with
         | inl e => (Raise (OSError e p), logged (OpenWrite p) w)
         | inr f' => (Ret tt, World f' (w_log w ++ [OpenWrite p]))
         end.
Proof.
  unfold write_text, check_nul, mbind, M_bind.
  destruct (has_nul p); [reflexivity|]. simpl.
  destruct (sys_write (w_fs w) p c); reflexivity.
Qed.

Lemma os_remove_run (p : path) (w : world) :
  os_remove p w
  = if has_nul p then (Raise ValueError, w)
    else match sys_unlink (w_fs w) p with
         | inl e => (Raise (OSError e p), logged (Unlink p) w)
         | inr f' => (Ret tt, World f' (w_log w ++ [Unlink p]))
         end.
Proof.
  unfold os_remove, check_nul, mbind, M_bind.
  destruct (has_nul p); [reflexivity|]. simpl.
  destruct (sys_unlink (w_fs w) p); reflexivity.
Qed.

(** ** Running the tools *)

Lemma save_docs_run (name c : string) (w : world) :
  save_docs name c w
  = let t := truediv DOCS_DIR (stored_name name) in
    if has_nul t then (Ret (save_error ValueError), w)
    else match sys_write (w_fs w) t c with
         | inl e => (Ret (save_error (OSError e t)), logged (OpenWrite t) w)
         | inr f' => (Ret (saved_msg (stored_name name)),
                      World f' (w_log w ++ [OpenWrite t]))
         end.
Proof.
  unfold save_docs, try_except, mbind, M_bind.
  rewrite ensure_md_stored, write_text_run. simpl.
  destruct (has_nul _); [reflexivity|].
  destruct (sys_write _ _ _); reflexivity.
Qed.

Lemma remove_docs_run (name : string) (w : world) :
  remove_docs name w
  = let t := target name in
    if has_nul t then (Ret (not_found_msg (ensure_md name)), w)
    else match lookup_path (w_fs w) t with
         | inl e =>
             if ignore_error e
             then (Ret (not_found_msg (ensure_md name)), logged (Stat t) w)
             else (Raise (OSError e t), logged (Stat t) w)
         | inr _ =>
             match sys_unlink (w_fs w) t with
             | inl e => (Ret (remove_error (OSError e t)),
                         logged (Unlink t) (logged (Stat t) w))
             | inr f' => (Ret (removed_msg (ensure_md name)),
                          World f' ((w_log w ++ [Stat t]) ++ [Unlink t]))
             end
         end.
Proof.
  unfold remove_docs, mbind, M_bind. fold (target name).
  rewrite path_exists_run. simpl.
  destruct (has_nul (target name)) eqn:Hn; [reflexivity|].
  destruct (lookup_path _ _) as [e|n]; [by destruct (ignore_error e)|].
  simpl. unfold try_except, mbind, M_bind. rewrite os_remove_run, Hn. simpl.
  destruct (sys_unlink _ _); reflexivity.
Qed.

Lemma saved_msg_not_error (n : string) (e : exn) : saved_msg n ≠ save_error e.
Proof. unfold saved_msg, save_error. rewrite !append_cons. discriminate. Qed.

Lemma removed_msg_not_error (n : string) (e : exn) :
  removed_msg n ≠ remove_error e.
Proof. unfold removed_msg, remove_error. rewrite !append_cons. discriminate. Qed.

Lemma removed_msg_not_missing (n m : string) : removed_msg n ≠ not_found_msg m.
Proof. unfold removed_msg, not_found_msg. rewrite !append_cons. discriminate. Qed.

(** A success message of [save_docs] means the write went through. *)
Lemma save_docs_success (name c : string) (w : world) :
  (save_docs name c w).1 = Ret (saved_msg (stored_name name)) →
  let t := truediv DOCS_DIR (stored_name name) in
  has_nul t = false
  ∧ ∃ f', sys_write (w_fs w) t c = inr f'
          ∧ (save_docs name c w).2 = World f' (w_log w ++ [OpenWrite t]).
Proof.
  rewrite save_docs_run. simpl.
  destruct (has_nul _); simpl.
  - intros H. exfalso.
    apply (saved_msg_not_error (stored_name name) ValueError). congruence.
  - destruct (sys_write _ _ _) as [e|f']; simpl.
    + intros H. exfalso.
      apply (saved_msg_not_error (stored_name name)
               (OSError e (truediv DOCS_DIR (stored_name name)))).
      congruence.
    + intros _. split; [done|]. by exists f'.
Qed.

(** A success message of [remove_docs] means the file was unlinked. *)
Lemma remove_docs_success (name : string) (w : world) :
  (remove_docs name w).1 = Ret (removed_msg (ensure_md name)) →
  let t := target name in
  has_nul t = false
  ∧ ∃ f', sys_unlink (w_fs w) t = inr f'
          ∧ w_fs (remove_docs name w).2 = f'.
Proof.
  rewrite remove_docs_run. simpl.
  destruct (has_nul _); simpl.
  - intros H. exfalso.
    apply (removed_msg_not_missing (ensure_md name) (ensure_md name)).
    congruence.
  - destruct (lookup_path _ _) as [e|n]; simpl.
    + destruct (ignore_error e); simpl; [|done].
      intros H. exfalso.
      apply (removed_msg_not_missing (ensure_md name) (ensure_md name)).
      congruence.
    + destruct (sys_unlink _ _) as [e|f']; simpl.
      * intros H. exfalso.
        apply (removed_msg_not_error (ensure_md name)
                 (OSError e (target name))).
        congruence.
      * intros _. split; [done|]. by exists f'.
Qed.

(** ** The store directory *)

Lemma DOCS_DIR_eq : DOCS_DIR = SCRIPT_DIR ++ ["docs"].
Proof. reflexivity. Qed.

Lemma parent_DOCS_DIR : parent DOCS_DIR = SCRIPT_DIR.
Proof. rewrite DOCS_DIR_eq. apply removelast_last. Qed.

Lemma has_nul_app (a b : path) : has_nul (a ++ b) = has_nul a || has_nul b.
Proof. apply existsb_app. Qed.

(** A plain name resolves to the entry of that name in the store. *)
Lemma resolve_child (f : fs) (n : string) :
  store_ready f → String.eqb n ".." = false →
  (NAME_MAX <? utf8_length n) = false →
  resolve f (DOCS_DIR ++ [n]) = inr (DOCS_DIR ++ [n]).
Proof.
  intros (_ & Hres & r & Hd) Hn Hlen. unfold resolve in *.
  rewrite walk_app, Hres. simpl. by rewrite Hd, Hn, Hlen.
Qed.

Lemma sys_write_child (f : fs) (n c : string) :
  store_ready f → String.eqb n ".." = false →
  (NAME_MAX <? utf8_length n) = false →
  can_store f (DOCS_DIR ++ [n]) = true →
  ∃ r, sys_write f (DOCS_DIR ++ [n]) c
       = inr (<[DOCS_DIR ++ [n] := NFile r true (Utf8 c)]> f).
Proof.
  intros Hs Hn Hlen Hc. unfold sys_write.
  rewrite (resolve_child _ _ Hs Hn Hlen).
  destruct Hs as (_ & _ & rd & Hd). unfold can_store in Hc.
  destruct (f !! (DOCS_DIR ++ [n])) as [[r w d|]|]; [| done |].
  - subst w. by exists r.
  - unfold parent. rewrite removelast_last, Hd. by exists true.
Qed.

(** ** The loop of [read_docs] *)

Lemma read_loop_cons (n : string) (rest : list string) (acc : string) :
  read_loop (n :: rest) acc
  = (found ← path_exists (target n);
     if negb found then
       read_loop rest (acc +:+ not_found_section (ensure_md n))
     else
       result ← try_except
         (content ← read_text (target n);
          mret (acc +:+ framed (ensure_md n) content))
         (λ e, mret (acc +:+ read_error (ensure_md n) e));
       read_loop rest result).
Proof. reflexivity. Qed.

(** One turn of the loop, when the existence check answers: the section
    of the name is appended and the file system is as before. *)
Lemma read_loop_step (n : string) (rest : list string) (acc : string)
    (w : world) :
  exists_on (w_fs w) (target n) ≠ None →
  ∃ w', w_fs w' = w_fs w
        ∧ read_loop (n :: rest) acc w
          = read_loop rest (acc +:+ section_of (w_fs w) n) w'.
Proof.
  rewrite read_loop_cons. unfold mbind, M_bind, section_of, exists_on.
  rewrite path_exists_run.
  destruct (has_nul (target n)) eqn:Hn; [by exists w|].
  destruct (lookup_path (w_fs w) (target n)) as [e|nd].
  - destruct (ignore_error e); [|done]. intros _.
    by exists (logged (Stat (target n)) w).
  - intros _. simpl. unfold try_except, mbind, M_bind, read_on.
    rewrite read_text_run, Hn. simpl.
    destruct (sys_open_read _ _) as [e|[t|]];
      by exists (logged (OpenRead (target n)) (logged (Stat (target n)) w)).
Qed.

Lemma read_loop_run (names : list string) :
  ∀ (acc : string) (w : world),
    Forall (λ n, exists_on (w_fs w) (target n) ≠ None) names →
    (read_loop names acc w).1
    = Ret (acc +:+ concat_all (section_of (w_fs w) <$> names))
    ∧ w_fs (read_loop names acc w).2 = w_fs w.
Proof.
  induction names as [|n rest IH]; intros acc w HF.
  - simpl. by rewrite append_nil_r.
  - apply Forall_cons in HF as [Hn HF].
    destruct (read_loop_step n rest acc w Hn) as (w' & Hw' & ->).
    rewrite <- Hw' in HF.
    destruct (IH (acc +:+ section_of (w_fs w) n) w' HF) as [-> ->].
    rewrite Hw'. split; [|done].
    simpl. by rewrite append_assoc.
Qed.

Lemma lstrip_head (a : ascii) (s x : string) :
  isspace a = false → lstrip (String a s +:+ x) = String a s +:+ x.
Proof. intros H. rewrite append_cons. simpl. by rewrite H. Qed.

Lemma lstrip_section (f : fs) (n : string) (x : string) :
  lstrip (section_of f n +:+ x) = section_of f n +:+ x.
Proof.
  unfold section_of, framed, read_error, not_found_section.
  destruct (exists_on _ _) as [[]|]; [destruct (read_on _ _)| |];
    by apply lstrip_head.
Qed.

(** On a list of names that is not empty the leading strip of [strip]
    finds nothing to remove. *)
Lemma strip_sections (f : fs) (names : list string) :
  names ≠ [] →
  strip (concat_all (section_of f <$> names))
  = rstrip (concat_all (section_of f <$> names)).
Proof.
  destruct names as [|n rest]; [done|]. intros _.
  unfold strip. simpl. by rewrite lstrip_section.
Qed.

(** The batch: when every existence check answers, the result is the
    sections of the names, in their order, with the trailing whitespace
    removed; the file system is unchanged. *)
Lemma read_docs_sections (names : list string) (w : world) :
  names ≠ [] →
  Forall (λ n, exists_on (w_fs w) (target n) ≠ None) names →
  (read_docs names w).1
  = Ret (rstrip (concat_all (section_of (w_fs w) <$> names)))
  ∧ w_fs (read_docs names w).2 = w_fs w.
Proof.
  intros Hne HF. destruct (read_loop_run names "" w HF) as [H1 H2].
  rewrite <- (strip_sections _ _ Hne).
  destruct names as [|n rest]; [done|].
  unfold read_docs, mbind, M_bind.
  destruct (read_loop (n :: rest) "" w) as [[r|e] w']; simpl in *; [|done].
  injection H1 as ->. by rewrite append_nil_l.
Qed.

Ltac rstrip_side :=
  first [ vm_compute; discriminate
        | apply rstrip_nonempty_app; rstrip_side ].

Lemma rstrip_framed (filename content : string) :
  rstrip (framed filename content)
  = "## " +:+ filename +:+ NL +:+ NL +:+ content +:+ NL +:+ NL
    +:+ repeat "=" 50.
Proof.
  unfold framed. rewrite !rstrip_app by rstrip_side. reflexivity.
Qed.

Lemma rstrip_not_found (filename : string) :
  rstrip (not_found_section filename) = not_found_msg filename.
Proof.
  unfold not_found_section, not_found_msg.
  rewrite !rstrip_app by rstrip_side. reflexivity.
Qed.

(** ** Listing the store *)

Lemma path_is_dir_run (p : path) (w : world) :
  path_is_dir p w
  = if has_nul p then (Ret false, w)
    else match lookup_path (w_fs w) p with
         | inr n => (Ret (match n with NDir _ _ _ => true | _ => false end),
                     logged (Stat p) w)
         | inl e => if ignore_error e then (Ret false, logged (Stat p) w)
                    else (Raise (OSError e p), logged (Stat p) w)
         end.
Proof.
  unfold path_is_dir, try_except, os_stat, check_nul, mbind, M_bind.
  destruct (has_nul p); [reflexivity|]. simpl.
  destruct (lookup_path (w_fs w) p) as [e|n]; simpl; [|reflexivity].
  by destruct (ignore_error e).
Qed.

Lemma os_scandir_run (p : path) (w : world) :
  os_scandir p w
  = if has_nul p then (Raise ValueError, w)
    else match sys_scandir (w_fs w) p with
         | inl e => (Raise (OSError e p), logged (Scandir p) w)
         | inr l => (Ret l, logged (Scandir p) w)
         end.
Proof.
  unfold os_scandir, check_nul, mbind, M_bind.
  destruct (has_nul p); [reflexivity|]. simpl.
  destruct (sys_scandir (w_fs w) p); reflexivity.
Qed.

Lemma entries_lookup (f : fs) (q : path) (n : string) :
  n ∈ entries f q → is_Some (f !! (q ++ [n])).
Proof.
  unfold entries. rewrite list_elem_of_omap.
  intros ([k v] & Hin & He). apply elem_of_map_to_list in Hin.
  unfold entry_of in He. simpl in He.
  destruct (reverse k) as [|m rq] eqn:Hrev; [done|].
  case_decide as Hq; [|done]. injection He as ->. subst q.
  rewrite <- reverse_cons, <- Hrev, reverse_involutive. eauto.
Qed.

(** Every path the glob yields is an entry of the directory [base]
    denotes whose name ends in [.md]; the glob changes no file. *)
Lemma glob_md_listed (base : path) (w w' : world) (ds : list path) :
  glob_md base w = (Ret ds, w') →
  w_fs w' = w_fs w
  ∧ ∀ d, d ∈ ds →
      ∃ n qb, d = base ++ [n] ∧ endswith n ".md" = true
              ∧ resolve (w_fs w) base = inr qb
              ∧ is_Some (w_fs w !! (qb ++ [n])).
Proof.
  unfold glob_md, mbind, M_bind. rewrite path_is_dir_run.
  destruct (has_nul base) eqn:Hn.
  { simpl. intros [= <- <-]. split; [done|]. by intros d ?%elem_of_nil. }
  destruct (lookup_path (w_fs w) base) as [e|nd].
  { destruct (ignore_error e); [|done].
    simpl. intros [= <- <-]. split; [done|]. by intros d ?%elem_of_nil. }
  destruct nd as [| r wr x]; simpl.
  { intros [= <- <-]. split; [done|]. by intros d ?%elem_of_nil. }
  unfold try_except, mbind, M_bind. rewrite os_scandir_run, Hn. simpl.
  unfold sys_scandir.
  destruct (resolve (w_fs w) base) as [e|qb] eqn:Hres; simpl.
  { destruct e; try done.
    intros [= <- <-]. split; [done|]. by intros d ?%elem_of_nil. }
  destruct (w_fs w !! qb) as [[|r' wr' x']|]; simpl; try done.
  destruct r'; simpl.
  - intros [= <- <-]. split; [done|].
    intros d (n & -> & Hin)%list_elem_of_fmap.
    apply list_elem_of_In, filter_In in Hin as [Hin Hmd].
    exists n, qb. split_and!; try done.
    by apply entries_lookup, list_elem_of_In.
  - intros [= <- <-]. split; [done|]. by intros d ?%elem_of_nil.
Qed.

Lemma walk_cons_dir (f : fs) (cur : path) (c : string) (rest : list string)
    (r w : bool) :
  f !! cur = Some (NDir r w true) →
  walk f cur (c :: rest)
  = if String.eqb c ".." then walk f (parent cur) rest
    else if NAME_MAX <? utf8_length c then inl ENAMETOOLONG
    else walk f (cur ++ [c]) rest.
Proof. intros H. simpl. by rewrite H. Qed.

(** A listed path denotes an entry that is there. *)
Lemma listed_resolve (f : fs) (base qb : path) (n : string) (q : path) :
  resolve f base = inr qb → endswith n ".md" = true →
  resolve f (base ++ [n]) = inr q → q = qb ++ [n].
Proof.
  unfold resolve. intros Hb Hmd. rewrite walk_app, Hb. simpl.
  destruct (f !! qb) as [[|r w x]|]; try done.
  destruct (negb x); [done|].
  destruct (String.eqb_spec n "..") as [->|_]; [done|].
  destruct (NAME_MAX <? utf8_length n); [done|]. by intros [= <-].
Qed.

(** ** The claims *)

(** C6: [read_docs] with an empty list of names returns the caller-error
    message and leaves the world as it was: the file system is unchanged
    and no call has been added to the log. *)
Theorem read_docs_empty (w : world) :
  read_docs [] w = (Ret "Error: No filenames provided.", w).
Proof. reflexivity. Qed.

(** X22: when the lookup of the target (the name with [.md] appended if it
    was missing) ends in "no such file" or in a component that is no
    directory, [remove_docs] returns the not-found message, the file system
    is unchanged, and the only call made, if any, is the existence
    check. *)
Theorem remove_docs_missing (name : string) (w : world) :
  missing (w_fs w) (target name) = true →
  (remove_docs name w).1 = Ret (not_found_msg (ensure_md name))
  ∧ w_fs (remove_docs name w).2 = w_fs w
  ∧ (w_log (remove_docs name w).2 = w_log w
     ∨ w_log (remove_docs name w).2 = w_log w ++ [Stat (target name)]).
Proof.
  unfold missing. rewrite remove_docs_run. simpl.
  destruct (has_nul _); [by auto|].
  destruct (lookup_path _ _) as [[]|]; simpl; try done; auto.
Qed.

(** Whatever the world, [save_docs] makes one call at most, the opening
    for writing of the stored name below the store, and either reports
    success with the content in the file or reports an error with the file
    system unchanged. *)
Lemma save_docs_outcomes (name c : string) (w : world) :
  let t := truediv DOCS_DIR (stored_name name) in
  let w' := (save_docs name c w).2 in
  (w_log w' = w_log w ∨ w_log w' = w_log w ++ [OpenWrite t])
  ∧ ((save_docs name c w).1 = Ret (saved_msg (stored_name name))
     ∧ (∃ q r, resolve (w_fs w) t = inr q
               ∧ w_fs w' = <[q := NFile r true (Utf8 c)]> (w_fs w))
     ∨ (∃ e, (save_docs name c w).1 = Ret (save_error e))
       ∧ w_fs w' = w_fs w).
Proof.
  simpl. rewrite save_docs_run. simpl.
  destruct (has_nul _); simpl; [by eauto 6|].
  destruct (sys_write _ _ _) as [e|f'] eqn:Hw; simpl; [by eauto 6|].
  destruct (sys_write_inv _ _ _ _ Hw) as (q & r & Hq & _ & -> & _).
  split; [by right|]. left. eauto.
Qed.

(** C5: [save_docs] stores under the name in kebab form (each character in
    lowercase, each space a hyphen) with [.md] appended unless the kebab
    form already ends in it. Whenever the path of that name below the store
    can be written (no null character in it, it resolves, and what it
    denotes is a writable file or a free place in a writable directory),
    [save_docs] returns the success message naming that file name, its one
    call is the opening for writing of that path, and afterwards the file
    the path denotes holds the content. *)
Theorem save_docs_stored_name (name c : string) (w : world) (q : path) :
  let t := truediv DOCS_DIR (stored_name name) in
  has_nul t = false →
  resolve (w_fs w) t = inr q →
  can_write_at (w_fs w) q = true →
  save_docs name c w
  = (Ret (saved_msg (stored_name name)),
     World (<[q := NFile (read_bit (w_fs w) q) true (Utf8 c)]> (w_fs w))
           (w_log w ++ [OpenWrite t])).
Proof.
  intros t Hn Hq Hc. rewrite save_docs_run. fold t. simpl. rewrite Hn.
  unfold sys_write. rewrite Hq. revert Hc. unfold can_write_at, read_bit.
  destruct (w_fs w !! q) as [[r wr d|]|]; [| done |].
  - by intros ->.
  - destruct (w_fs w !! parent q) as [[|r wr x]|]; try done. by intros ->.
Qed.

Lemma save_docs_twice (name c : string) (w : world) :
  w_fs (save_docs name c (save_docs name c w).2).2
  = w_fs (save_docs name c w).2.
Proof.
  rewrite (save_docs_run name c w). simpl.
  destruct (has_nul _) eqn:Hn; simpl.
  - rewrite save_docs_run. simpl. by rewrite Hn.
  - destruct (sys_write _ _ _) as [e|f'] eqn:Hw; simpl;
      rewrite save_docs_run; simpl; rewrite Hn.
    + by rewrite Hw.
    + by rewrite (sys_write_again _ _ _ _ Hw).
Qed.

(** C8: the file system after [N] calls of [save_docs] in a row with the
    same name and content, [N >= 1], is the file system after one call. *)
Theorem save_docs_idempotent (name c : string) (N : nat) (w : world) :
  1 <= N →
  w_fs (repeat_call (save_docs name c) N w) = w_fs (save_docs name c w).2.
Proof.
  intros HN. destruct N as [|k]; [lia|]. clear HN.
  revert w. induction k as [|k IH]; intros w; [reflexivity|].
  change (w_fs (repeat_call (save_docs name c) (S k) (save_docs name c w).2)
          = w_fs (save_docs name c w).2).
  rewrite IH. apply save_docs_twice.
Qed.

(** C10: the empty name is not rejected. Its kebab form is the empty
    string, and where the store directory is in place and nothing
    unwritable is called [.md] in it, [save_docs] with the empty name
    returns the success message for [.md] and the document [.md] of the
    store holds the content. *)
Theorem save_docs_empty_name (c : string) (w : world) :
  store_ready (w_fs w) →
  can_store (w_fs w) (DOCS_DIR ++ [".md"]) = true →
  kebab_case "" = ""
  ∧ (save_docs "" c w).1 = Ret (saved_msg ".md")
  ∧ ∃ r, w_fs (save_docs "" c w).2 !! (DOCS_DIR ++ [".md"])
         = Some (NFile r true (Utf8 c)).
Proof.
  intros Hs Hc. split; [reflexivity|].
  rewrite save_docs_run.
  change (truediv DOCS_DIR (stored_name "")) with (DOCS_DIR ++ [".md"]).
  change (stored_name "") with ".md". simpl.
  rewrite has_nul_app. destruct Hs as (Hn & Hs'). rewrite Hn. simpl.
  destruct (sys_write_child (w_fs w) ".md" c) as [r ->]; try done.
  simpl. split; [done|]. exists r. apply lookup_insert_eq.
Qed.

Lemma stored_name_kebab (name : string) :
  kebab_case name = name → stored_name name = ensure_md name.
Proof. intros Hk. by rewrite <- ensure_md_stored, Hk. Qed.

(** A file that holds readable text gives the framed section. *)
Lemma section_of_text (f : fs) (name : string) (q : path) (w : bool)
    (t : string) :
  has_nul (target name) = false →
  resolve f (target name) = inr q →
  f !! q = Some (NFile true w (Utf8 t)) →
  section_of f name = framed (ensure_md name) (universal_newlines t).
Proof.
  intros Hn Hq Hf.
  unfold section_of, exists_on, read_on, sys_open_read, lookup_path.
  by rewrite Hn, Hq, Hf.
Qed.

Lemma exists_on_some (f : fs) (p q : path) (n : node) :
  has_nul p = false → resolve f p = inr q → f !! q = Some n →
  exists_on f p = Some true.
Proof.
  intros Hn Hq Hf. unfold exists_on, lookup_path. by rewrite Hn, Hq, Hf.
Qed.

Lemma exists_on_none (f : fs) (p q : path) :
  resolve f p = inr q → f !! q = None → exists_on f p = Some false.
Proof.
  intros Hq Hf. unfold exists_on, lookup_path. rewrite Hq, Hf.
  by destruct (has_nul p).
Qed.

Lemma read_docs_one (name : string) (w : world) :
  exists_on (w_fs w) (target name) ≠ None →
  (read_docs [name] w).1 = Ret (rstrip (section_of (w_fs w) name)).
Proof.
  intros He.
  destruct (read_docs_sections [name] w) as [-> _]; [done | by constructor |].
  simpl. by rewrite append_nil_r.
Qed.

(** C1, as the code has it: for a name that is its own kebab form and a
    content without carriage returns, when [save_docs] reports success and
    the document was not an unreadable file before, [read_docs] of that
    name returns the section headed by the file name whose body is exactly
    the content. *)
Theorem save_then_read (name c : string) (w : world) :
  kebab_case name = name →
  contains_char CR c = false →
  readable_or_absent (w_fs w) (target name) = true →
  (save_docs name c w).1 = Ret (saved_msg (ensure_md name)) →
  (read_docs [name] (save_docs name c w).2).1
  = Ret ("## " +:+ ensure_md name +:+ NL +:+ NL +:+ c +:+ NL +:+ NL
         +:+ repeat "=" 50).
Proof.
  intros Hk Hc Hr Hs. pose proof (stored_name_kebab _ Hk) as Hst.
  rewrite <- Hst in Hs.
  destruct (save_docs_success _ _ _ Hs) as (Hn & f' & Hw & ->).
  rewrite Hst in Hn, Hw. fold (target name) in Hn, Hw.
  pose proof (sys_write_resolve _ _ _ _ Hw) as Hres.
  destruct (sys_write_inv _ _ _ _ Hw) as (q & r & Hq & Hcs & -> & Hr1 & Hr2).
  assert (r = true) as ->.
  { unfold readable_or_absent, lookup_path in Hr. rewrite Hq in Hr.
    unfold can_store in Hcs.
    destruct (w_fs w !! q) as [[r0 w0 d0|]|]; [| done | by apply Hr2].
    rewrite (Hr1 r0 w0 d0 eq_refl). by destruct r0. }
  rewrite read_docs_one; simpl.
  - erewrite section_of_text;
      [| done | by apply Hres | by apply lookup_insert_eq].
    by rewrite rstrip_framed, universal_newlines_id.
  - erewrite exists_on_some;
      [done | done | by apply Hres | by apply lookup_insert_eq].
Qed.

(** After a removal that reports success the document is not found and
    not listed. *)
Lemma removed_is_gone (name : string) (w1 : world) :
  (remove_docs name w1).1 = Ret (removed_msg (ensure_md name)) →
  let w2 := (remove_docs name w1).2 in
  (read_docs [name] w2).1 = Ret (not_found_msg (ensure_md name))
  ∧ ∀ doc_files w3, glob_md DOCS_DIR w2 = (Ret doc_files, w3) →
      ∀ d, d ∈ doc_files →
        resolve (w_fs w2) d ≠ resolve (w_fs w2) (target name).
Proof.
  intros Hrm w2.
  destruct (remove_docs_success _ _ Hrm) as (Hn & f2 & Hu & Hf2).
  fold w2 in Hf2.
  pose proof (sys_unlink_resolve _ _ _ Hu) as Hres.
  destruct (sys_unlink_inv _ _ _ Hu) as (q & r & wr & d & Hq & Hf & ->).
  apply Hres in Hq. rewrite <- Hf2 in Hq.
  assert (w_fs w2 !! q = None) as Hgone.
  { rewrite Hf2. apply lookup_delete_eq. }
  clearbody w2. split.
  - rewrite read_docs_one.
    + unfold section_of. rewrite (exists_on_none _ _ _ Hq Hgone).
      apply f_equal, rstrip_not_found.
    + by rewrite (exists_on_none _ _ _ Hq Hgone).
  - intros ds w3 Hg dl Hin.
    destruct (glob_md_listed _ _ _ _ Hg) as [_ Hl].
    destruct (Hl dl Hin) as (n & qb & -> & Hmd & Hb & Hsome).
    rewrite Hq. intros Heq.
    pose proof (listed_resolve _ _ _ _ _ Hb Hmd Heq) as ->.
    rewrite Hgone in Hsome. by destruct Hsome.
Qed.

(** A document that has just been written is removed, when its directory
    is writable. *)
Lemma remove_after_save_succeeds (name c : string) (w : world) :
  kebab_case name = name →
  (save_docs name c w).1 = Ret (saved_msg (ensure_md name)) →
  parent_writable (w_fs w) (target name) = true →
  (remove_docs name (save_docs name c w).2).1
  = Ret (removed_msg (ensure_md name)).
Proof.
  intros Hk Hs Hp. pose proof (stored_name_kebab _ Hk) as Hst.
  rewrite <- Hst in Hs.
  destruct (save_docs_success _ _ _ Hs) as (Hn & f' & Hw & ->).
  rewrite Hst in Hn, Hw. fold (target name) in Hn, Hw.
  pose proof (sys_write_resolve _ _ _ _ Hw) as Hres.
  destruct (sys_write_inv _ _ _ _ Hw) as (q & r & Hq & Hcs & -> & _).
  unfold parent_writable in Hp. rewrite Hq in Hp.
  destruct (w_fs w !! parent q) as [[|rd wd xd]|] eqn:Hpar; try done.
  subst wd.
  assert (q ≠ parent q) as Hne.
  { intros Heq. unfold can_store in Hcs. rewrite Heq in Hcs at 1.
    by rewrite Hpar in Hcs. }
  rewrite remove_docs_run. simpl. rewrite Hn.
  unfold lookup_path, sys_unlink. rewrite (Hres _ _ Hq).
  rewrite lookup_insert_eq, lookup_insert_ne, Hpar by done. done.
Qed.

(** C2, as the code has it: for a name that is its own kebab form, when
    [save_docs] reports success and the directory that holds the document
    is writable, [remove_docs] of that name reports success, [read_docs] of
    that name then reports not-found, and no path that the listing yields
    denotes the document that was stored. *)
Theorem save_remove_gone (name c : string) (w : world) :
  kebab_case name = name →
  (save_docs name c w).1 = Ret (saved_msg (ensure_md name)) →
  parent_writable (w_fs w) (target name) = true →
  let w1 := (save_docs name c w).2 in
  let w2 := (remove_docs name w1).2 in
  let doc := truediv DOCS_DIR (stored_name name) in
  (remove_docs name w1).1 = Ret (removed_msg (ensure_md name))
  ∧ (read_docs [name] w2).1 = Ret (not_found_msg (ensure_md name))
  ∧ ∀ doc_files w3, glob_md DOCS_DIR w2 = (Ret doc_files, w3) →
      ∀ d, d ∈ doc_files → resolve (w_fs w2) d ≠ resolve (w_fs w2) doc.
Proof.
  intros Hk Hs Hp w1 w2 doc. unfold doc.
  rewrite (stored_name_kebab _ Hk). fold (target name).
  pose proof (remove_after_save_succeeds _ _ _ Hk Hs Hp) as Hrm.
  split; [exact Hrm|]. by apply removed_is_gone.
Qed.

Lemma target_dotdot : target "../x" = DOCS_DIR ++ [".."; "x.md"].
Proof. reflexivity. Qed.

Lemma stored_dotdot : stored_name "../x" = ensure_md "../x".
Proof. reflexivity. Qed.

(** From the store, [../x.md] is the file [x.md] of the script's own
    directory. *)
Lemma resolve_dotdot (f : fs) :
  store_ready f → script_dir_ready f →
  resolve f (target "../x") = inr (SCRIPT_DIR ++ ["x.md"]).
Proof.
  intros (_ & Hres & rd & Hd) (rs & Hs). unfold resolve in *.
  rewrite target_dotdot, walk_app, Hres.
  rewrite (walk_cons_dir _ _ _ _ _ _ Hd).
  change (String.eqb ".." "..") with true. cbv iota.
  rewrite parent_DOCS_DIR, (walk_cons_dir _ _ _ _ _ _ Hs).
  reflexivity.
Qed.

Lemma has_nul_dotdot (f : fs) : store_ready f → has_nul (target "../x") = false.
Proof.
  intros (Hn & _). by rewrite target_dotdot, has_nul_app, Hn.
Qed.

(** C9: no tool guards against path traversal. With the store and the
    directory of the script in place, the name [../x] denotes the file
    [x.md] of the script's directory, which is not below the store, for
    [read_docs], [save_docs] and [remove_docs] alike: [read_docs] returns
    the text of that file, [save_docs] creates it, [remove_docs] deletes
    it. *)
Theorem traversal_escapes (c : string) (w : world) :
  store_ready (w_fs w) → script_dir_ready (w_fs w) →
  let out := SCRIPT_DIR ++ ["x.md"] in
  ¬ (DOCS_DIR `prefix_of` out)
  ∧ resolve (w_fs w) (target "../x") = inr out
  ∧ resolve (w_fs w) (truediv DOCS_DIR (stored_name "../x")) = inr out
  ∧ (∀ t wr, w_fs w !! out = Some (NFile true wr (Utf8 t)) →
       (read_docs ["../x"] w).1
       = Ret ("## ../x.md" +:+ NL +:+ NL +:+ universal_newlines t
              +:+ NL +:+ NL +:+ repeat "=" 50))
  ∧ (w_fs w !! out = None →
       (save_docs "../x" c w).1 = Ret (saved_msg "../x.md")
       ∧ w_fs (save_docs "../x" c w).2
         = <[out := NFile true true (Utf8 c)]> (w_fs w))
  ∧ (∀ r wr d, w_fs w !! out = Some (NFile r wr d) →
       (remove_docs "../x" w).1 = Ret (removed_msg "../x.md")
       ∧ w_fs (remove_docs "../x" w).2 = delete out (w_fs w)).
Proof.
  intros Hst Hsc out. subst out.
  pose proof (resolve_dotdot _ Hst Hsc) as Hres.
  pose proof (has_nul_dotdot _ Hst) as Hn.
  destruct Hsc as (rs & Hs).
  assert (parent (SCRIPT_DIR ++ ["x.md"]) = SCRIPT_DIR) as Hpar
    by apply removelast_last.
  split_and!.
  - rewrite DOCS_DIR_eq. intros [k Hk].
    rewrite <- app_assoc in Hk. by apply app_inv_head in Hk.
  - exact Hres.
  - rewrite stored_dotdot. exact Hres.
  - intros t wr Hf. rewrite read_docs_one.
    + erewrite section_of_text; [| done | exact Hres | exact Hf].
      by rewrite rstrip_framed.
    + by erewrite exists_on_some.
  - intros Hf. rewrite save_docs_run, stored_dotdot. fold (target "../x").
    simpl. rewrite Hn. unfold sys_write. rewrite Hres, Hf, Hpar, Hs.
    done.
  - intros r wr d Hf. rewrite remove_docs_run. simpl. rewrite Hn.
    unfold lookup_path, sys_unlink. rewrite Hres, Hf, Hpar, Hs. done.
Qed.

(** ** Which tools can raise *)

(** [save_docs] always returns a string. *)
Lemma save_docs_returns (name c : string) (w : world) :
  ∃ msg, (save_docs name c w).1 = Ret msg.
Proof.
  rewrite save_docs_run. simpl.
  destruct (has_nul _); [by eauto|].
  destruct (sys_write _ _ _); by eauto.
Qed.

(** [remove_docs] returns a string whenever its existence check
    answers. *)
Lemma remove_docs_returns (name : string) (w : world) :
  exists_on (w_fs w) (target name) ≠ None →
  ∃ msg, (remove_docs name w).1 = Ret msg.
Proof.
  unfold exists_on. rewrite remove_docs_run. simpl.
  destruct (has_nul _); [by eauto|].
  destruct (lookup_path _ _) as [e|n].
  - destruct (ignore_error e); [by eauto | done].
  - destruct (sys_unlink _ _); by eauto.
Qed.

(** ** Names *)

Lemma kebab_form_char_idem (a : ascii) :
  kebab_form_char (kebab_form_char a) = kebab_form_char a.
Proof. destruct a as [[] [] [] [] [] [] [] []]; reflexivity. Qed.

Lemma lower_kebab_form_char (a : ascii) :
  lower_char (kebab_form_char a) = kebab_form_char a.
Proof. destruct a as [[] [] [] [] [] [] [] []]; reflexivity. Qed.

Lemma kebab_form_char_no_space (a : ascii) :
  Ascii.eqb (kebab_form_char a) " " = false.
Proof. destruct a as [[] [] [] [] [] [] [] []]; reflexivity. Qed.

Lemma map_chars_length (g : ascii → ascii) (s : string) :
  String.length (map_chars g s) = String.length s.
Proof. induction s as [|x s IH]; simpl; [done | by rewrite IH]. Qed.

Lemma kebab_case_twice (s : string) :
  kebab_case (kebab_case s) = kebab_case s.
Proof.
  rewrite !kebab_case_form. unfold kebab_form.
  rewrite map_chars_compose. apply map_chars_ext, kebab_form_char_idem.
Qed.

(** X1: [kebab_case] is idempotent (a name in kebab form is left as it
    is), leaves no space in the text and leaves nothing for [lower] to
    change. *)
Theorem kebab_case_shape (s : string) :
  kebab_case (kebab_case s) = kebab_case s
  ∧ contains_char " " (kebab_case s) = false
  ∧ lower (kebab_case s) = kebab_case s.
Proof.
  split; [apply kebab_case_twice|].
  rewrite !kebab_case_form. unfold kebab_form, lower. split.
  - induction s as [|x s IH]; simpl; [done|].
    by rewrite kebab_form_char_no_space, IH.
  - rewrite map_chars_compose. apply map_chars_ext, lower_kebab_form_char.
Qed.

Lemma append_length (a b : string) :
  String.length (a +:+ b) = String.length a + String.length b.
Proof.
  induction a as [|x a IH]; [done|]. rewrite append_cons. simpl. by rewrite IH.
Qed.

Lemma substring_all (t : string) : substring 0 (String.length t) t = t.
Proof. induction t as [|x t IH]; simpl; [done | by rewrite IH]. Qed.

Lemma substring_skip (a b : string) :
  substring (String.length a) (String.length b) (a +:+ b) = b.
Proof.
  induction a as [|x a IH]; [apply substring_all|].
  rewrite append_cons. simpl. exact IH.
Qed.

Lemma endswith_app (a b : string) : endswith (a +:+ b) b = true.
Proof.
  unfold endswith. rewrite append_length.
  replace (String.length a + String.length b - String.length b)
    with (String.length a) by lia.
  rewrite substring_skip, String.eqb_refl, andb_true_r.
  apply Nat.leb_le. lia.
Qed.

Lemma ensure_md_endswith (s : string) : endswith (ensure_md s) ".md" = true.
Proof.
  unfold ensure_md.
  destruct (endswith s ".md") eqn:E; simpl; [done | apply endswith_app].
Qed.

Lemma ensure_md_twice (s : string) : ensure_md (ensure_md s) = ensure_md s.
Proof. unfold ensure_md at 1. by rewrite ensure_md_endswith. Qed.

Lemma stored_name_endswith (s : string) : endswith (stored_name s) ".md" = true.
Proof. rewrite <- ensure_md_stored. apply ensure_md_endswith. Qed.

(** X2: after the suffix step the name ends in [.md], and the step does
    nothing to a name that has been through it; so the name [save_docs]
    stores under always ends in [.md]. *)
Theorem ensure_md_suffix (s : string) :
  endswith (ensure_md s) ".md" = true
  ∧ ensure_md (ensure_md s) = ensure_md s
  ∧ endswith (stored_name s) ".md" = true.
Proof.
  split_and!;
    [apply ensure_md_endswith | apply ensure_md_twice
     | apply stored_name_endswith].
Qed.

(** ** Observers *)

(** A turn of the loop whose existence check raises ends the loop with that
    exception. *)
Lemma read_loop_raise (n : string) (rest : list string) (acc : string)
    (w : world) :
  exists_on (w_fs w) (target n) = None →
  ∃ en, lookup_path (w_fs w) (target n) = inl en ∧ ignore_error en = false
        ∧ read_loop (n :: rest) acc w
          = (Raise (OSError en (target n)), logged (Stat (target n)) w).
Proof.
  rewrite read_loop_cons. unfold mbind, M_bind, exists_on.
  rewrite path_exists_run.
  destruct (has_nul (target n)); [done|].
  destruct (lookup_path (w_fs w) (target n)) as [e|nd]; [|done].
  destruct (ignore_error e) eqn:Hi; [done|]. intros _. by exists e.
Qed.

Lemma read_loop_fs (names : list string) :
  ∀ (acc : string) (w : world), w_fs (read_loop names acc w).2 = w_fs w.
Proof.
  induction names as [|n rest IH]; intros acc w; [done|].
  destruct (exists_on (w_fs w) (target n)) eqn:He.
  - destruct (read_loop_step n rest acc w) as (w' & Hw' & ->); [by rewrite He|].
    by rewrite IH.
  - by destruct (read_loop_raise n rest acc w He) as (en & _ & _ & ->).
Qed.

Lemma glob_md_fs (base : path) (w : world) : w_fs (glob_md base w).2 = w_fs w.
Proof.
  unfold glob_md, mbind, M_bind. rewrite path_is_dir_run.
  destruct (has_nul base) eqn:Hn; [done|].
  destruct (lookup_path (w_fs w) base) as [e|nd].
  { by destruct (ignore_error e). }
  destruct nd as [| r wr x]; simpl; [done|].
  unfold try_except, mbind, M_bind. rewrite os_scandir_run, Hn. simpl.
  destruct (sys_scandir _ _) as [[]|l]; done.
Qed.

(** X3: [read_docs] and [list_docs] are observers: whatever they return or
    raise, the file system is as it was. *)
Theorem observers_keep_fs (names : list string) (w : world) :
  w_fs (read_docs names w).2 = w_fs w ∧ w_fs (list_docs w).2 = w_fs w.
Proof.
  split.
  - destruct names as [|n rest]; [done|].
    unfold read_docs, mbind, M_bind.
    pose proof (read_loop_fs (n :: rest) "" w) as H.
    by destruct (read_loop (n :: rest) "" w) as [[r|e] w'].
  - unfold list_docs, mbind, M_bind.
    pose proof (glob_md_fs DOCS_DIR w) as H.
    destruct (glob_md DOCS_DIR w) as [[ds|e] w']; [|done].
    by destruct (bool_decide (ds = [])).
Qed.

Lemma read_loop_raises (names : list string) (e : exn) :
  ∀ (acc : string) (w : world),
    (read_loop names acc w).1 = Raise e →
    ∃ n en, n ∈ names ∧ e = OSError en (target n)
            ∧ ignore_error en = false
            ∧ lookup_path (w_fs w) (target n) = inl en.
Proof.
  induction names as [|n rest IH]; intros acc w; [done|].
  destruct (exists_on (w_fs w) (target n)) eqn:He.
  - destruct (read_loop_step n rest acc w) as (w' & Hw' & ->); [by rewrite He|].
    intros (m & en & Hin & H)%IH. rewrite Hw' in H.
    exists m, en. split; [by apply list_elem_of_further | done].
  - destruct (read_loop_raise n rest acc w He) as (en & Hl & Hi & ->).
    simpl. intros [= <-]. exists n, en. split; [by apply list_elem_of_here | done].
Qed.

(** X4: the only exception [read_docs] lets through is the [OSError] of an
    existence check: when it raises, one of the requested names has a
    target whose lookup fails with an error that [Path.exists] does not
    take for "no". *)
Theorem read_docs_raises_only_from_exists (names : list string) (e : exn)
    (w : world) :
  (read_docs names w).1 = Raise e →
  ∃ n en, n ∈ names ∧ e = OSError en (target n)
          ∧ ignore_error en = false
          ∧ lookup_path (w_fs w) (target n) = inl en.
Proof.
  destruct names as [|n rest]; [done|].
  unfold read_docs, mbind, M_bind. intros H.
  apply (read_loop_raises (n :: rest) e "" w).
  by destruct (read_loop (n :: rest) "" w) as [[r|e'] w'].
Qed.

(** X5: [remove_docs] changes the file system in one way only: when it
    reports success, the file its target denotes has been deleted; in every
    other case, a raised exception included, the file system is as it was.
    It never removes a directory. *)
Theorem remove_docs_effect (name : string) (w : world) :
  w_fs (remove_docs name w).2 = w_fs w
  ∨ ∃ q r wr d,
      resolve (w_fs w) (target name) = inr q
      ∧ w_fs w !! q = Some (NFile r wr d)
      ∧ w_fs (remove_docs name w).2 = delete q (w_fs w)
      ∧ (remove_docs name w).1 = Ret (removed_msg (ensure_md name)).
Proof.
  rewrite remove_docs_run. simpl.
  destruct (has_nul _); [by left|].
  destruct (lookup_path _ _) as [e|n]; [by destruct (ignore_error e); left|].
  destruct (sys_unlink _ _) as [e|f'] eqn:Hu; [by left|].
  destruct (sys_unlink_inv _ _ _ Hu) as (q & r & wr & d & Hq & Hf & ->).
  right. by exists q, r, wr, d.
Qed.

(** X6: a second [remove_docs] of a name whose removal has just succeeded
    reports not-found and changes nothing. *)
Theorem remove_docs_twice (name : string) (w : world) :
  (remove_docs name w).1 = Ret (removed_msg (ensure_md name)) →
  let w1 := (remove_docs name w).2 in
  (remove_docs name w1).1 = Ret (not_found_msg (ensure_md name))
  ∧ w_fs (remove_docs name w1).2 = w_fs w1.
Proof.
  intros Hrm w1.
  destruct (remove_docs_success _ _ Hrm) as (Hn & f1 & Hu & Hf1).
  fold w1 in Hf1. clearbody w1.
  pose proof (sys_unlink_resolve _ _ _ Hu) as Hres.
  destruct (sys_unlink_inv _ _ _ Hu) as (q & r & wr & d & Hq & Hf & ->).
  apply Hres in Hq. rewrite remove_docs_run. simpl. rewrite Hn.
  unfold lookup_path. rewrite Hf1, Hq, lookup_delete_eq. done.
Qed.

(** ** Writing *)

(** X7: [save_docs] never raises, and it touches one node at most: every
    place other than the one its target denotes holds what it held. *)
Theorem save_docs_frame (name c : string) (w : world) :
  (∃ msg, (save_docs name c w).1 = Ret msg)
  ∧ ∀ q', resolve (w_fs w) (truediv DOCS_DIR (stored_name name)) ≠ inr q' →
      w_fs (save_docs name c w).2 !! q' = w_fs w !! q'.
Proof.
  rewrite save_docs_run. simpl.
  destruct (has_nul _); [by eauto|].
  destruct (sys_write _ _ _) as [e|f'] eqn:Hw; [by eauto|].
  split; [by eauto|]. intros q' Hq'. simpl.
  destruct (sys_write_inv _ _ _ _ Hw) as (q & r & Hq & _ & -> & _).
  apply lookup_insert_ne. intros ->. by apply Hq'.
Qed.

(** A write that succeeds would have succeeded with any content, and a
    second write to the file goes as the first would have. *)
Lemma sys_write_overwrite (f f1 : fs) (p : path) (c1 c2 : string) :
  sys_write f p c1 = inr f1 →
  ∃ f2, sys_write f p c2 = inr f2 ∧ sys_write f1 p c2 = inr f2.
Proof.
  intros Hw. pose proof (sys_write_resolve _ _ _ _ Hw) as Hres.
  revert Hw. unfold sys_write.
  destruct (resolve f p) as [e|q] eqn:Hq; [done|].
  rewrite (Hres _ _ Hq).
  destruct (f !! q) as [[r wr d|]|] eqn:Hf; [| done |].
  - destruct wr; simpl; [|done]. intros [= <-].
    rewrite lookup_insert_eq. simpl. rewrite insert_insert_eq. eauto.
  - destruct (f !! parent q) as [[|r wr x]|]; try done.
    destruct wr; simpl; [|done]. intros [= <-].
    rewrite lookup_insert_eq. simpl. rewrite insert_insert_eq. eauto.
Qed.

(** X8: the last write wins. Saving a second content under the same name
    leaves the file system that saving the second content alone leaves:
    nothing of the first content remains. *)
Theorem save_docs_overwrites (name c1 c2 : string) (w : world) :
  w_fs (save_docs name c2 (save_docs name c1 w).2).2
  = w_fs (save_docs name c2 w).2.
Proof.
  rewrite (save_docs_run name c1 w). simpl.
  destruct (has_nul _) eqn:Hn; simpl; [done|].
  destruct (sys_write (w_fs w) _ c1) as [e|f1] eqn:Hw; simpl.
  - rewrite !save_docs_run. simpl. rewrite Hn. simpl.
    by destruct (sys_write (w_fs w) _ c2).
  - rewrite !save_docs_run. simpl. rewrite Hn.
    destruct (sys_write_overwrite _ _ _ _ c2 Hw) as (f2 & -> & ->). done.
Qed.

(** X9: names with the same kebab form are one document to [save_docs]:
    saving under a name and saving under its kebab form are the same
    call. *)
Theorem save_docs_kebab_name (name c : string) (w : world) :
  save_docs (kebab_case name) c w = save_docs name c w.
Proof.
  rewrite !save_docs_run.
  assert (stored_name (kebab_case name) = stored_name name) as ->; [|done].
  by rewrite <- !ensure_md_stored, kebab_case_twice.
Qed.

(** X10: the round trip under the stored name. For every name, when
    [save_docs] reports success, the content has no carriage return and the
    document was not an unreadable file before, [read_docs] of the kebab
    form of the name returns the section headed by the stored file name
    whose body is the content. *)
Theorem save_then_read_kebab (name c : string) (w : world) :
  contains_char CR c = false →
  readable_or_absent (w_fs w) (truediv DOCS_DIR (stored_name name)) = true →
  (save_docs name c w).1 = Ret (saved_msg (stored_name name)) →
  (read_docs [kebab_case name] (save_docs name c w).2).1
  = Ret ("## " +:+ stored_name name +:+ NL +:+ NL +:+ c +:+ NL +:+ NL
         +:+ repeat "=" 50).
Proof.
  intros Hc Hr Hs.
  destruct (save_docs_success _ _ _ Hs) as (Hn & f' & Hw & ->).
  pose proof (ensure_md_stored name) as Hst.
  assert (target (kebab_case name) = truediv DOCS_DIR (stored_name name))
    as Ht by (unfold target; by rewrite Hst).
  pose proof (sys_write_resolve _ _ _ _ Hw) as Hres.
  destruct (sys_write_inv _ _ _ _ Hw) as (q & r & Hq & Hcs & -> & Hr1 & Hr2).
  assert (r = true) as ->.
  { unfold readable_or_absent, lookup_path in Hr. rewrite Hq in Hr.
    unfold can_store in Hcs.
    destruct (w_fs w !! q) as [[r0 w0 d0|]|]; [| done | by apply Hr2].
    rewrite (Hr1 r0 w0 d0 eq_refl). by destruct r0. }
  rewrite read_docs_one; simpl.
  - erewrite section_of_text; rewrite ?Ht;
      [| done | by apply Hres | by apply lookup_insert_eq].
    by rewrite Hst, rstrip_framed, universal_newlines_id.
  - erewrite exists_on_some; rewrite ?Ht;
      [done | done | by apply Hres | by apply lookup_insert_eq].
Qed.

(** ** Reading *)

(** X11: a requested name whose document is missing gives the not-found
    notice for that name, and nothing else. *)
Theorem read_docs_missing (name : string) (w : world) :
  missing (w_fs w) (target name) = true →
  (read_docs [name] w).1 = Ret (not_found_msg (ensure_md name)).
Proof.
  unfold missing. intros Hm.
  assert (exists_on (w_fs w) (target name) = Some false) as He.
  { unfold exists_on. destruct (has_nul _); [done|].
    by destruct (lookup_path _ _) as [[]|]. }
  rewrite read_docs_one by (by rewrite He).
  unfold section_of. rewrite He. apply f_equal, rstrip_not_found.
Qed.

(** X12: the batch, when every existence check answers: the result is the
    sections of the requested names in their order with the trailing
    whitespace removed, a missing document giving its not-found notice and
    an unreadable one its reading error; the first section starts the
    result. *)
Theorem read_docs_batch (names : list string) (w : world) :
  names ≠ [] →
  Forall (λ n, exists_on (w_fs w) (target n) ≠ None) names →
  (read_docs names w).1
  = Ret (rstrip (concat_all (section_of (w_fs w) <$> names)))
  ∧ strip (concat_all (section_of (w_fs w) <$> names))
    = rstrip (concat_all (section_of (w_fs w) <$> names)).
Proof.
  intros Hne HF. split.
  - by destruct (read_docs_sections names w Hne HF).
  - by apply strip_sections.
Qed.

(** X13: what is found but cannot be read as text is reported in line: a
    directory, a file without read permission and a file whose bytes are
    not UTF-8 each give the reading error of the name, not an exception. *)
Theorem read_docs_unreadable (name : string) (w : world) (q : path) (n : node) :
  has_nul (target name) = false →
  resolve (w_fs w) (target name) = inr q →
  w_fs w !! q = Some n →
  (∀ wr t, n ≠ NFile true wr (Utf8 t)) →
  ∃ e, (read_docs [name] w).1 = Ret (rstrip (read_error (ensure_md name) e)).
Proof.
  intros Hn Hq Hf Hbad.
  rewrite read_docs_one by (by erewrite exists_on_some).
  unfold section_of. erewrite exists_on_some by done.
  unfold read_on, sys_open_read, lookup_path. rewrite Hn, Hq, Hf.
  destruct n as [[] wr [t|]|r wr x]; simpl; eauto.
  by destruct (Hbad wr t).
Qed.

(** X14: the suffix is optional: [read_docs] and [remove_docs] take a name
    with [.md] and the same name without it for the same document. *)
Theorem md_suffix_optional (names : list string) (name : string) (w : world) :
  read_docs (ensure_md <$> names) w = read_docs names w
  ∧ remove_docs (ensure_md name) w = remove_docs name w.
Proof.
  pose proof ensure_md_twice as Hid.
  split.
  - assert (∀ l acc v, read_loop (ensure_md <$> l) acc v = read_loop l acc v)
      as Hl.
    { induction l as [|n rest IH]; intros acc v; [done|].
      rewrite fmap_cons, !read_loop_cons. unfold target, mbind, M_bind.
      rewrite Hid.
      destruct (path_exists _ v) as [[[]|e] v']; simpl; [| apply IH | done].
      destruct (try_except _ _ v') as [[r|e] v'']; [apply IH | done]. }
    destruct names as [|n rest]; [done|].
    unfold read_docs, mbind, M_bind. rewrite fmap_cons.
    by rewrite <- fmap_cons, Hl.
  - unfold remove_docs. by rewrite Hid.
Qed.

(** ** Listing *)

Lemma entries_complete (f : fs) (q : path) (n : string) :
  is_Some (f !! (q ++ [n])) → n ∈ entries f q.
Proof.
  intros [v Hv]. unfold entries. apply list_elem_of_omap.
  exists (q ++ [n], v). split; [by apply elem_of_map_to_list|].
  unfold entry_of. simpl. rewrite reverse_snoc.
  by rewrite decide_True by apply reverse_involutive.
Qed.

(** The glob on a directory that can be read. *)
Lemma glob_md_dir (base qb : path) (w : world) (wr x : bool) :
  has_nul base = false →
  resolve (w_fs w) base = inr qb →
  w_fs w !! qb = Some (NDir true wr x) →
  glob_md base w
  = (Ret ((λ n, base ++ [n])
          <$> List.filter (λ n, endswith n ".md") (entries (w_fs w) qb)),
     logged (Scandir base) (logged (Stat base) w)).
Proof.
  intros Hn Hq Hd. unfold glob_md, mbind, M_bind.
  rewrite path_is_dir_run, Hn. unfold lookup_path. rewrite Hq, Hd. simpl.
  unfold try_except, mbind, M_bind. rewrite os_scandir_run, Hn. simpl.
  unfold sys_scandir. by rewrite Hq, Hd.
Qed.

Lemma fold_left_append {A} (g : A → string) (l : list A) :
  ∀ init, fold_left (λ acc a, acc +:+ g a) l init
          = init +:+ concat_all (g <$> l).
Proof.
  induction l as [|a l IH]; intros init; simpl.
  - by rewrite append_nil_r.
  - by rewrite IH, append_assoc.
Qed.

(** X15: what [list_docs] returns for the files the glob yields: the
    no-documents message for none, else the header and one bullet line per
    file, in the order of the glob, with the bare file name; every listed
    file is an entry that is there in the directory the store path denotes,
    and its name ends in [.md]. *)
Theorem list_docs_format (w w' : world) (doc_files : list path) :
  glob_md DOCS_DIR w = (Ret doc_files, w') →
  (list_docs w).1
  = Ret (match doc_files with
         | [] => "No documentation files found."
         | _ => "Available documentation files:" +:+ NL +:+ NL
                +:+ concat_all ((λ d, "- " +:+ path_name d +:+ NL)
                                <$> doc_files)
         end)
  ∧ ∀ d, d ∈ doc_files →
      d = DOCS_DIR ++ [path_name d]
      ∧ endswith (path_name d) ".md" = true
      ∧ ∃ qb, resolve (w_fs w) DOCS_DIR = inr qb
              ∧ is_Some (w_fs w !! (qb ++ [path_name d])).
Proof.
  intros Hg. split.
  - unfold list_docs, mbind, M_bind. rewrite Hg.
    destruct doc_files as [|d ds]; [done|].
    rewrite bool_decide_false by done. simpl fst.
    rewrite (fold_left_append (λ d, "- " +:+ path_name d +:+ NL)).
    by rewrite append_assoc.
  - intros d Hd. destruct (glob_md_listed _ _ _ _ Hg) as [_ Hl].
    destruct (Hl d Hd) as (n & qb & -> & Hmd & Hb & Hsome).
    unfold path_name. rewrite last_last. split_and!; [done | done |].
    by exists qb.
Qed.

(** X16: without a store directory that can be read there is nothing to
    list: when the path of the store denotes nothing, a file, or a
    directory without read permission, [list_docs] returns the
    no-documents message. *)
Theorem list_docs_no_store (w : world) :
  missing (w_fs w) DOCS_DIR = true
  ∨ (∃ r wr d, lookup_path (w_fs w) DOCS_DIR = inr (NFile r wr d))
  ∨ (∃ wr x, lookup_path (w_fs w) DOCS_DIR = inr (NDir false wr x)) →
  (list_docs w).1 = Ret "No documentation files found.".
Proof.
  intros H. unfold list_docs, glob_md, mbind, M_bind.
  rewrite path_is_dir_run.
  destruct (has_nul DOCS_DIR) eqn:Hn; [done|].
  destruct H as [Hm | [(r & wr & d & Hl) | (wr & x & Hl)]].
  - unfold missing in Hm.
    by destruct (lookup_path (w_fs w) DOCS_DIR) as [[]|].
  - by rewrite Hl.
  - rewrite Hl. simpl.
    unfold try_except, mbind, M_bind. rewrite os_scandir_run, Hn. simpl.
    unfold sys_scandir. unfold lookup_path in Hl.
    destruct (resolve (w_fs w) DOCS_DIR) as [e|q]; [done|].
    destruct (w_fs w !! q) as [n|]; [|done]. by injection Hl as ->.
Qed.

(** X17: a document just saved is listed. With the store in place and
    readable, a name that is a plain file name and a [save_docs] that
    reports success, the files of the listing include the document under
    its stored name. *)
Theorem save_then_listed (name c : string) (w : world) (wr x : bool) :
  has_nul DOCS_DIR = false →
  resolve (w_fs w) DOCS_DIR = inr DOCS_DIR →
  w_fs w !! DOCS_DIR = Some (NDir true wr x) →
  truediv DOCS_DIR (stored_name name) = DOCS_DIR ++ [stored_name name] →
  (save_docs name c w).1 = Ret (saved_msg (stored_name name)) →
  ∃ doc_files w',
    glob_md DOCS_DIR (save_docs name c w).2 = (Ret doc_files, w')
    ∧ DOCS_DIR ++ [stored_name name] ∈ doc_files.
Proof.
  intros Hn Hres Hd Hplain Hs.
  destruct (save_docs_success _ _ _ Hs) as (_ & f' & Hw & ->).
  rewrite Hplain in Hw.
  pose proof (sys_write_resolve _ _ _ _ Hw) as Hpres.
  destruct (sys_write_inv _ _ _ _ Hw) as (q & r & Hq & Hcs & -> & _).
  pose proof (stored_name_endswith name) as Hmd.
  pose proof (listed_resolve _ _ _ _ _ Hres Hmd Hq) as ->.
  eexists _, _. split.
  - apply (glob_md_dir _ DOCS_DIR _ wr x); simpl; [done | by apply Hpres |].
    rewrite lookup_insert_ne; [done|].
    intros H. apply (f_equal List.length) in H.
    rewrite length_app in H. simpl in H. lia.
  - apply (list_elem_of_fmap_2 (λ n, DOCS_DIR ++ [n])).
    apply list_elem_of_In, filter_In. split; [|done].
    apply list_elem_of_In, entries_complete. simpl.
    rewrite lookup_insert_eq. eauto.
Qed.

(** ** Creating the store *)

Lemma makedirs_snoc (f : fs) (head : path) (tail : string) :
  makedirs f (head ++ [tail])
  = if negb (ospath_exists f head) then
      match makedirs f head with
      | (f1, None) | (f1, Some MkExists) =>
          if String.eqb tail "." then (f1, None)
          else mkdir_or_isdir f1 (head ++ [tail])
      | (f1, Some e) => (f1, Some e)
      end
    else mkdir_or_isdir f (head ++ [tail]).
Proof.
  unfold makedirs. rewrite reverse_snoc. simpl.
  by rewrite reverse_cons, reverse_involutive.
Qed.

(** What is found below a directory is found through it. *)
Lemma lookup_prefix_exists (f : fs) (head : path) (tail : string) (n : node) :
  has_nul (head ++ [tail]) = false →
  lookup_path f (head ++ [tail]) = inr n →
  ospath_exists f head = true.
Proof.
  rewrite has_nul_app. intros [Hn _]%orb_false_elim.
  unfold ospath_exists, lookup_path, resolve. rewrite Hn, walk_app. simpl.
  destruct (walk f [] head) as [e|qh]; [done|].
  by destruct (f !! qh) as [[|r w x]|].
Qed.

Lemma dirs_preserved_insert_fresh (f : fs) (q : path) (n : node) :
  f !! q = None → dirs_preserved f (<[q := n]> f).
Proof.
  intros Hq k r w x Hk. rewrite lookup_insert_ne; [done|].
  intros ->. by rewrite Hk in Hq.
Qed.

(** When the last step of [makedirs] goes through, the name is a
    directory. *)
Lemma mkdir_or_isdir_ok (f f' : fs) (p : path) :
  mkdir_or_isdir f p = (f', None) → ospath_isdir f' p = true.
Proof.
  unfold mkdir_or_isdir, sys_mkdir, ospath_isdir.
  destruct (has_nul p) eqn:Hn; [done|].
  destruct (resolve f p) as [e|q] eqn:Hq.
  { unfold lookup_path. rewrite Hq. simpl. done. }
  destruct (f !! q) as [n|] eqn:Hf.
  { unfold lookup_path at 1. rewrite Hq, Hf. simpl.
    destruct n; [done|]. intros [= <-].
    unfold lookup_path. by rewrite Hq, Hf. }
  destruct (f !! parent q) as [[|r w x]|].
  - unfold lookup_path. rewrite Hq, Hf. done.
  - destruct w; simpl.
    + intros [= <-]. unfold lookup_path, resolve.
      erewrite walk_preserved;
        [| by apply dirs_preserved_insert_fresh | exact Hq].
      by rewrite lookup_insert_eq.
    + unfold lookup_path. rewrite Hq, Hf. done.
  - unfold lookup_path. rewrite Hq, Hf. done.
Qed.

(** On a name that is a directory already the last step changes
    nothing. *)
Lemma mkdir_or_isdir_existing (f : fs) (p : path) :
  ospath_isdir f p = true → mkdir_or_isdir f p = (f, None).
Proof.
  intros Hd. unfold mkdir_or_isdir. rewrite Hd. revert Hd.
  unfold ospath_isdir, sys_mkdir, lookup_path.
  destruct (has_nul p); [done|]. simpl.
  destruct (resolve f p) as [e|q]; [done|].
  by destruct (f !! q) as [[|r w x]|].
Qed.

(** X18: loading the module leaves a store that is there as it is: when
    the path of the store denotes a directory, [os.makedirs] with
    [exist_ok=True] raises nothing and changes nothing. *)
Theorem startup_existing_store (f : fs) :
  ospath_isdir f DOCS_DIR = true → startup f = (f, None).
Proof.
  intros Hd. unfold startup. rewrite DOCS_DIR_eq, makedirs_snoc.
  rewrite <- DOCS_DIR_eq.
  assert (ospath_exists f SCRIPT_DIR = true) as ->.
  { revert Hd. unfold ospath_isdir. rewrite DOCS_DIR_eq.
    destruct (has_nul _) eqn:Hn; [done|]. simpl.
    destruct (lookup_path _ _) as [e|n] eqn:Hl; [done|]. intros _.
    by eapply lookup_prefix_exists. }
  simpl. by apply mkdir_or_isdir_existing.
Qed.

(** X19: when loading the module raises nothing, the store is a directory
    afterwards, and loading it again changes nothing: the store is created
    idempotently. *)
Theorem startup_idempotent (f : fs) :
  (startup f).2 = None →
  ospath_isdir (startup f).1 DOCS_DIR = true
  ∧ startup (startup f).1 = ((startup f).1, None).
Proof.
  intros Hok.
  assert (ospath_isdir (startup f).1 DOCS_DIR = true) as Hd.
  { revert Hok. unfold startup. rewrite DOCS_DIR_eq, makedirs_snoc.
    change (String.eqb "docs" ".") with false. cbv iota.
    rewrite <- DOCS_DIR_eq.
    destruct (negb (ospath_exists f SCRIPT_DIR)).
    - destruct (makedirs f SCRIPT_DIR) as [f1 [[]|]]; simpl; try done.
      + destruct (mkdir_or_isdir f1 DOCS_DIR) as [f' o] eqn:Hm. simpl.
        intros ->. by eapply mkdir_or_isdir_ok.
      + destruct (mkdir_or_isdir f1 DOCS_DIR) as [f' o] eqn:Hm. simpl.
        intros ->. by eapply mkdir_or_isdir_ok.
    - destruct (mkdir_or_isdir f DOCS_DIR) as [f' o] eqn:Hm. simpl.
      intros ->. by eapply mkdir_or_isdir_ok. }
  split; [done|].
  revert Hd. generalize (startup f).1. intros f' Hd.
  unfold startup. rewrite DOCS_DIR_eq, makedirs_snoc. rewrite <- DOCS_DIR_eq.
  assert (ospath_exists f' SCRIPT_DIR = true) as ->.
  { revert Hd. unfold ospath_isdir. rewrite DOCS_DIR_eq.
    destruct (has_nul _) eqn:Hn; [done|]. simpl.
    destruct (lookup_path _ _) as [e|n] eqn:Hl; [done|]. intros _.
    by eapply lookup_prefix_exists. }
  simpl. by apply mkdir_or_isdir_existing.
Qed.

(** X20: the first run: when the directory of the script is in place and
    writable and nothing is called [docs] in it, loading the module creates
    the store as a directory and changes nothing else. *)
Theorem startup_creates_store (f : fs) (r : bool) :
  has_nul DOCS_DIR = false →
  resolve f SCRIPT_DIR = inr SCRIPT_DIR →
  f !! SCRIPT_DIR = Some (NDir r true true) →
  f !! DOCS_DIR = None →
  startup f = (<[DOCS_DIR := NDir true true true]> f, None).
Proof.
  intros Hn Hres Hs Hd. unfold startup.
  rewrite DOCS_DIR_eq, makedirs_snoc. rewrite <- DOCS_DIR_eq.
  assert (ospath_exists f SCRIPT_DIR = true) as ->.
  { unfold ospath_exists, lookup_path. rewrite Hres, Hs.
    rewrite DOCS_DIR_eq, has_nul_app in Hn.
    apply orb_false_elim in Hn as [-> _]. done. }
  simpl. unfold mkdir_or_isdir, sys_mkdir. rewrite Hn.
  assert (resolve f DOCS_DIR = inr DOCS_DIR) as ->.
  { unfold resolve in *. rewrite DOCS_DIR_eq, walk_app, Hres.
    by rewrite (walk_cons_dir _ _ _ _ _ _ Hs). }
  by rewrite Hd, parent_DOCS_DIR, Hs.
Qed.

(** X21: a file in the place of the store stops the server from loading:
    [os.makedirs] raises [FileExistsError] and changes nothing. *)
Theorem startup_blocked_by_file (f : fs) (r w : bool) (d : fdata) :
  has_nul DOCS_DIR = false →
  lookup_path f DOCS_DIR = inr (NFile r w d) →
  startup f = (f, Some MkExists).
Proof.
  intros Hn Hl. unfold startup.
  rewrite DOCS_DIR_eq, makedirs_snoc. rewrite <- DOCS_DIR_eq.
  assert (ospath_exists f SCRIPT_DIR = true) as ->.
  { rewrite DOCS_DIR_eq in Hn, Hl. by eapply lookup_prefix_exists. }
  simpl. unfold mkdir_or_isdir, sys_mkdir, ospath_isdir. rewrite Hn, Hl.
  unfold lookup_path in Hl.
  destruct (resolve f DOCS_DIR) as [e|q]; [done|].
  destruct (f !! q) as [n|]; [|done]. done.
Qed.

End Server.

(** ** The claims on the example worlds *)

(** An instance of [save_then_read]: a document saved in the empty store
    and read back. *)
Lemma save_then_read_witness :
  (read_docs ["srv"] demo_str ["notes"]
     (save_docs ["srv"] demo_str "notes" "# Hello" fresh).2).1
  = Ret ("## notes.md" +:+ NL +:+ NL +:+ "# Hello" +:+ NL +:+ NL
         +:+ repeat "=" 50).
Proof.
  apply (save_then_read ["srv"] demo_str "notes" "# Hello" fresh);
    vm_compute; reflexivity.
Defined.

(** C1 as stated fails: a name that is not its own kebab form is stored
    under another name than the one [read_docs] looks up; a carriage return
    in the content comes back as a line feed; and a document that may be
    written but not read is saved and then not read back. *)
Lemma roundtrip_counterexample :
  (save_docs ["srv"] demo_str "My Notes" "# Hello" fresh).1
  = Ret "Successfully saved documentation to my-notes.md in /srv/docs"
  ∧ (read_docs ["srv"] demo_str ["My Notes"]
       (save_docs ["srv"] demo_str "My Notes" "# Hello" fresh).2).1
    = Ret "Error: File 'My Notes.md' not found."
  ∧ (read_docs ["srv"] demo_str ["notes"]
       (save_docs ["srv"] demo_str "notes" ("a" +:+ String CR "b") fresh).2).1
    = Ret ("## notes.md" +:+ NL +:+ NL +:+ ("a" +:+ String LF "b")
           +:+ NL +:+ NL +:+ repeat "=" 50)
  ∧ (save_docs ["srv"] demo_str "a" "new" writeonly).1
    = Ret "Successfully saved documentation to a.md in /srv/docs"
  ∧ (read_docs ["srv"] demo_str ["a"]
       (save_docs ["srv"] demo_str "a" "new" writeonly).2).1
    = Ret "Error reading 'a.md': OSError".
Proof. vm_compute. done. Qed.

(** An instance of [save_remove_gone]. *)
Lemma save_remove_gone_witness :
  let w1 := (save_docs ["srv"] demo_str "notes" "# Hello" fresh).2 in
  let w2 := (remove_docs ["srv"] demo_str "notes" w1).2 in
  (remove_docs ["srv"] demo_str "notes" w1).1
  = Ret (removed_msg ["srv"] "notes.md")
  ∧ (read_docs ["srv"] demo_str ["notes"] w2).1
    = Ret "Error: File 'notes.md' not found."
  ∧ ∀ doc_files w3, glob_md (DOCS_DIR ["srv"]) w2 = (Ret doc_files, w3) →
      ∀ d, d ∈ doc_files →
        resolve (w_fs w2) d ≠ resolve (w_fs w2) ["srv"; "docs"; "notes.md"].
Proof.
  apply (save_remove_gone ["srv"] demo_str "notes" "# Hello" fresh);
    vm_compute; reflexivity.
Defined.

(** C2 as stated fails on a name that is not its own kebab form:
    [remove_docs] looks for another file than the one [save_docs] wrote,
    and the listing still has the document. It fails as well where the
    store directory is not writable: the document is overwritten, its
    removal is refused, and it is still read. *)
Lemma remove_counterexample :
  let w1 := (save_docs ["srv"] demo_str "My Notes" "# Hello" fresh).2 in
  let w2 := (remove_docs ["srv"] demo_str "My Notes" w1).2 in
  let v1 := (save_docs ["srv"] demo_str "a" "new" readonly).2 in
  let v2 := (remove_docs ["srv"] demo_str "a" v1).2 in
  (remove_docs ["srv"] demo_str "My Notes" w1).1
  = Ret "Error: File 'My Notes.md' not found."
  ∧ (list_docs ["srv"] w2).1
    = Ret ("Available documentation files:" +:+ NL +:+ NL
           +:+ "- my-notes.md" +:+ NL)
  ∧ (read_docs ["srv"] demo_str ["my-notes"] w2).1
    = Ret ("## my-notes.md" +:+ NL +:+ NL +:+ "# Hello" +:+ NL +:+ NL
           +:+ repeat "=" 50)
  ∧ (save_docs ["srv"] demo_str "a" "new" readonly).1
    = Ret "Successfully saved documentation to a.md in /srv/docs"
  ∧ (remove_docs ["srv"] demo_str "a" v1).1
    = Ret "Error removing documentation: OSError"
  ∧ (read_docs ["srv"] demo_str ["a"] v2).1
    = Ret ("## a.md" +:+ NL +:+ NL +:+ "new" +:+ NL +:+ NL +:+ repeat "=" 50)
  ∧ (list_docs ["srv"] v2).1
    = Ret ("Available documentation files:" +:+ NL +:+ NL
           +:+ "- a.md" +:+ NL).
Proof. vm_compute. done. Qed.

(** An instance of [save_docs_stored_name]: [My Notes] goes to
    [my-notes.md] in the store. *)
Lemma save_docs_stored_name_witness :
  save_docs ["srv"] demo_str "My Notes" "# Hello" fresh
  = (Ret (saved_msg ["srv"] (stored_name "My Notes")),
     World (<[ ["srv"; "docs"; "my-notes.md"]
               := NFile (read_bit (w_fs fresh) ["srv"; "docs"; "my-notes.md"])
                        true (Utf8 "# Hello") ]> (w_fs fresh))
           (w_log fresh
            ++ [OpenWrite (truediv (DOCS_DIR ["srv"]) (stored_name "My Notes"))])).
Proof.
  apply (save_docs_stored_name ["srv"] demo_str "My Notes" "# Hello" fresh
           ["srv"; "docs"; "my-notes.md"]); vm_compute; reflexivity.
Defined.

(** C7: where the existence check itself fails, a name whose document is
    not there gets no not-found message: [remove_docs] raises. Nothing is
    at the target of a name longer than the system allows, nor at the
    target [ghost.md] of the store that may not be searched, and in both
    cases the [OSError] of the check leaves [remove_docs]. *)
Theorem remove_missing_raises :
  demo_fs !! ["srv"; "docs"; repeat "a" 300 +:+ ".md"] = None
  ∧ (remove_docs ["srv"] demo_str (repeat "a" 300) demo).1
    = Raise (OSError ENAMETOOLONG ["srv"; "docs"; repeat "a" 300 +:+ ".md"])
  ∧ locked_fs !! ["srv"; "docs"; "ghost.md"] = None
  ∧ (remove_docs ["srv"] demo_str "ghost" locked).1
    = Raise (OSError EACCES ["srv"; "docs"; "ghost.md"]).
Proof. vm_compute. done. Qed.

(** C3: an existence check that raises is outside every [try]. A name
    longer than the system allows, in the store as it is, and any name when
    the store directory may not be searched, make [read_docs] and
    [remove_docs] raise instead of returning a string. *)
Theorem exists_check_escapes :
  (read_docs ["srv"] demo_str [repeat "a" 300] demo).1
  = Raise (OSError ENAMETOOLONG ["srv"; "docs"; repeat "a" 300 +:+ ".md"])
  ∧ (remove_docs ["srv"] demo_str (repeat "a" 300) demo).1
    = Raise (OSError ENAMETOOLONG ["srv"; "docs"; repeat "a" 300 +:+ ".md"])
  ∧ (read_docs ["srv"] demo_str ["a"] locked).1
    = Raise (OSError EACCES ["srv"; "docs"; "a.md"])
  ∧ (remove_docs ["srv"] demo_str "a" locked).1
    = Raise (OSError EACCES ["srv"; "docs"; "a.md"]).
Proof. vm_compute. done. Qed.

(** C4: the batch aborts on a name whose existence check raises. The
    document [a.md] is there and is returned when asked for alone; asked for
    together with a name longer than the system allows, nothing is
    returned. *)
Theorem batch_aborts :
  (read_docs ["srv"] demo_str ["a"] demo).1
  = Ret ("## a.md" +:+ NL +:+ NL +:+ "alpha" +:+ NL +:+ NL +:+ repeat "=" 50)
  ∧ (read_docs ["srv"] demo_str ["a"; repeat "a" 300] demo).1
    = Raise (OSError ENAMETOOLONG ["srv"; "docs"; repeat "a" 300 +:+ ".md"]).
Proof. vm_compute. done. Qed.

(** An instance of [remove_docs_missing]. *)
Lemma remove_docs_missing_witness :
  (remove_docs ["srv"] demo_str "ghost" demo).1
  = Ret "Error: File 'ghost.md' not found."
  ∧ w_fs (remove_docs ["srv"] demo_str "ghost" demo).2 = demo_fs
  ∧ (w_log (remove_docs ["srv"] demo_str "ghost" demo).2 = []
     ∨ w_log (remove_docs ["srv"] demo_str "ghost" demo).2
       = [] ++ [Stat ["srv"; "docs"; "ghost.md"]]).
Proof.
  apply (remove_docs_missing ["srv"] demo_str "ghost" demo).
  vm_compute. reflexivity.
Defined.

(** An instance of [save_docs_idempotent]: three calls. *)
Lemma save_docs_idempotent_witness :
  w_fs (repeat_call (save_docs ["srv"] demo_str "My Notes" "# Hello") 3 demo)
  = w_fs (save_docs ["srv"] demo_str "My Notes" "# Hello" demo).2.
Proof.
  apply (save_docs_idempotent ["srv"] demo_str "My Notes" "# Hello" 3 demo).
  lia.
Defined.

(** An instance of [traversal_escapes]: through the name [../x] the file
    [/srv/x.md] next to the store is read and deleted, and created where it
    is not there. *)
Lemma traversal_escapes_witness :
  ¬ (DOCS_DIR ["srv"] `prefix_of` ["srv"; "x.md"])
  ∧ resolve demo_fs (target ["srv"] "../x") = inr ["srv"; "x.md"]
  ∧ (read_docs ["srv"] demo_str ["../x"] demo).1
    = Ret ("## ../x.md" +:+ NL +:+ NL +:+ "top secret" +:+ NL +:+ NL
           +:+ repeat "=" 50)
  ∧ w_fs (remove_docs ["srv"] demo_str "../x" demo).2
    = delete ["srv"; "x.md"] demo_fs.
Proof.
  destruct (traversal_escapes ["srv"] demo_str "mine" demo)
    as (H1 & H2 & _ & H3 & _ & H4).
  - split; [vm_compute; reflexivity|].
    split; [vm_compute; reflexivity|].
    exists true. vm_compute. reflexivity.
  - exists true. vm_compute. reflexivity.
  - split; [exact H1|]. split; [exact H2|]. split.
    + apply (H3 "top secret" true). vm_compute. reflexivity.
    + apply (H4 true true (Utf8 "top secret")). vm_compute. reflexivity.
Defined.

(** The same on the empty store, where [/srv/x.md] is created. *)
Example traversal_creates :
  (save_docs ["srv"] demo_str "../x" "mine" fresh).1
  = Ret "Successfully saved documentation to ../x.md in /srv/docs"
  ∧ w_fs (save_docs ["srv"] demo_str "../x" "mine" fresh).2
    = <[ ["srv"; "x.md"] := NFile true true (Utf8 "mine") ]> fresh_fs.
Proof. vm_compute. done. Qed.

(** An instance of [save_docs_empty_name]. *)
Lemma save_docs_empty_name_witness :
  kebab_case "" = ""
  ∧ (save_docs ["srv"] demo_str "" "text" fresh).1
    = Ret "Successfully saved documentation to .md in /srv/docs"
  ∧ ∃ r, w_fs (save_docs ["srv"] demo_str "" "text" fresh).2
           !! ["srv"; "docs"; ".md"]
         = Some (NFile r true (Utf8 "text")).
Proof.
  apply (save_docs_empty_name ["srv"] demo_str "text" fresh).
  - split; [vm_compute; reflexivity|].
    split; [vm_compute; reflexivity|].
    exists true. vm_compute. reflexivity.
  - vm_compute. reflexivity.
Defined.

(** ** The functions on small inputs *)

Example kebab_case_ex : kebab_case "My Notes" = "my-notes".
Proof. reflexivity. Qed.

(** The suffix check sees the lowercased name. *)
Example stored_name_ex :
  stored_name "My Notes" = "my-notes.md" ∧ stored_name "Notes.MD" = "notes.md".
Proof. split; reflexivity. Qed.

Example strip_ex : strip ("  a b " +:+ NL) = "a b".
Proof. reflexivity. Qed.

Example truediv_ex :
  truediv ["srv"; "docs"] "a//b/./c.md" = ["srv"; "docs"; "a"; "b"; "c.md"]
  ∧ truediv ["srv"; "docs"] "/etc/c.md" = ["etc"; "c.md"].
Proof. split; reflexivity. Qed.

Example list_docs_ex :
  (list_docs ["srv"] fresh).1 = Ret "No documentation files found.".
Proof. vm_compute. reflexivity. Qed.

(** ** The further properties on the example worlds *)

(** An instance of [read_docs_raises_only_from_exists]. *)
Lemma read_docs_raises_witness :
  ∃ n en,
    n ∈ [repeat "a" 300]
    ∧ OSError ENAMETOOLONG ["srv"; "docs"; repeat "a" 300 +:+ ".md"]
      = OSError en (target ["srv"] n)
    ∧ ignore_error en = false
    ∧ lookup_path (w_fs demo) (target ["srv"] n) = inl en.
Proof.
  apply (read_docs_raises_only_from_exists ["srv"] demo_str
           [repeat "a" 300] _ demo).
  vm_compute. reflexivity.
Defined.

(** An instance of [remove_docs_twice]. *)
Lemma remove_docs_twice_witness :
  let w1 := (remove_docs ["srv"] demo_str "a" demo).2 in
  (remove_docs ["srv"] demo_str "a" w1).1 = Ret (not_found_msg "a.md")
  ∧ w_fs (remove_docs ["srv"] demo_str "a" w1).2 = w_fs w1.
Proof.
  apply (remove_docs_twice ["srv"] demo_str "a" demo).
  vm_compute. reflexivity.
Defined.

(** An instance of [save_then_read_kebab]: saved as [My Notes], read as
    [my-notes]. *)
Lemma save_then_read_kebab_witness :
  (read_docs ["srv"] demo_str [kebab_case "My Notes"]
     (save_docs ["srv"] demo_str "My Notes" "# Hello" fresh).2).1
  = Ret ("## " +:+ stored_name "My Notes" +:+ NL +:+ NL +:+ "# Hello"
         +:+ NL +:+ NL +:+ repeat "=" 50).
Proof.
  apply (save_then_read_kebab ["srv"] demo_str "My Notes" "# Hello" fresh);
    vm_compute; reflexivity.
Defined.

(** An instance of [read_docs_missing]. *)
Lemma read_docs_missing_witness :
  (read_docs ["srv"] demo_str ["missing"] demo).1
  = Ret (not_found_msg "missing.md").
Proof.
  apply (read_docs_missing ["srv"] demo_str "missing" demo).
  vm_compute. reflexivity.
Defined.

(** An instance of [read_docs_batch]: [a.md] is there, [b.md] is not. *)
Lemma read_docs_batch_witness :
  (read_docs ["srv"] demo_str ["a"; "b"] demo).1
  = Ret (rstrip (concat_all (section_of ["srv"] demo_str (w_fs demo)
                             <$> ["a"; "b"])))
  ∧ strip (concat_all (section_of ["srv"] demo_str (w_fs demo) <$> ["a"; "b"]))
    = rstrip (concat_all (section_of ["srv"] demo_str (w_fs demo)
                          <$> ["a"; "b"])).
Proof.
  apply (read_docs_batch ["srv"] demo_str ["a"; "b"] demo).
  - discriminate.
  - repeat constructor; vm_compute; discriminate.
Defined.

(** The batch of the witness, written out. *)
Example read_docs_batch_ex :
  (read_docs ["srv"] demo_str ["a"; "b"] demo).1
  = Ret ("## a.md" +:+ NL +:+ NL +:+ "alpha" +:+ NL +:+ NL +:+ repeat "=" 50
         +:+ NL +:+ NL +:+ "Error: File 'b.md' not found.").
Proof. vm_compute. reflexivity. Qed.

(** An instance of [read_docs_unreadable]: the write-only [a.md]. *)
Lemma read_docs_unreadable_witness :
  ∃ e, (read_docs ["srv"] demo_str ["a"] writeonly).1
       = Ret (rstrip (read_error demo_str (ensure_md "a") e)).
Proof.
  apply (read_docs_unreadable ["srv"] demo_str "a" writeonly
           ["srv"; "docs"; "a.md"] (NFile false true (Utf8 "alpha")));
    [vm_compute; reflexivity .. | discriminate].
Defined.

(** An instance of [list_docs_format]. *)
Lemma list_docs_format_witness :
  (list_docs ["srv"] demo).1
  = Ret ("Available documentation files:" +:+ NL +:+ NL
         +:+ concat_all ((λ d, "- " +:+ path_name d +:+ NL)
                         <$> [["srv"; "docs"; "a.md"]]))
  ∧ ∀ d, d ∈ [["srv"; "docs"; "a.md"]] →
      d = DOCS_DIR ["srv"] ++ [path_name d]
      ∧ endswith (path_name d) ".md" = true
      ∧ ∃ qb, resolve (w_fs demo) (DOCS_DIR ["srv"]) = inr qb
              ∧ is_Some (w_fs demo !! (qb ++ [path_name d])).
Proof.
  apply (list_docs_format ["srv"] demo
           (logged (Scandir ["srv"; "docs"]) (logged (Stat ["srv"; "docs"]) demo))
           [["srv"; "docs"; "a.md"]]).
  vm_compute. reflexivity.
Defined.

(** An instance of [list_docs_no_store]: the server before its store was
    made. *)
Lemma list_docs_no_store_witness :
  (list_docs ["srv"] (World bare_fs [])).1
  = Ret "No documentation files found.".
Proof.
  apply (list_docs_no_store ["srv"] (World bare_fs [])).
  left. vm_compute. reflexivity.
Defined.

(** An instance of [save_then_listed]. *)
Lemma save_then_listed_witness :
  ∃ doc_files w',
    glob_md (DOCS_DIR ["srv"])
      (save_docs ["srv"] demo_str "My Notes" "# Hello" fresh).2
    = (Ret doc_files, w')
    ∧ DOCS_DIR ["srv"] ++ [stored_name "My Notes"] ∈ doc_files.
Proof.
  apply (save_then_listed ["srv"] demo_str "My Notes" "# Hello" fresh true true);
    vm_compute; reflexivity.
Defined.

(** An instance of [startup_existing_store]. *)
Lemma startup_existing_store_witness : startup ["srv"] demo_fs = (demo_fs, None).
Proof.
  apply (startup_existing_store ["srv"] demo_fs). vm_compute. reflexivity.
Defined.

(** An instance of [startup_idempotent]: the first run and the second. *)
Lemma startup_idempotent_witness :
  ospath_isdir (startup ["srv"] bare_fs).1 (DOCS_DIR ["srv"]) = true
  ∧ startup ["srv"] (startup ["srv"] bare_fs).1
    = ((startup ["srv"] bare_fs).1, None).
Proof.
  apply (startup_idempotent ["srv"] bare_fs). vm_compute. reflexivity.
Defined.

(** An instance of [startup_creates_store]: the store of [fresh] is what
    the first run makes. *)
Lemma startup_creates_store_witness :
  startup ["srv"] bare_fs
  = (<[DOCS_DIR ["srv"] := NDir true true true]> bare_fs, None).
Proof.
  apply (startup_creates_store ["srv"] bare_fs true); vm_compute; reflexivity.
Defined.

(** An instance of [startup_blocked_by_file]. *)
Lemma startup_blocked_by_file_witness :
  startup ["srv"] blocked_fs = (blocked_fs, Some MkExists).
Proof.
  apply (startup_blocked_by_file ["srv"] blocked_fs true true
           (Utf8 "not a directory")); vm_compute; reflexivity.
Defined.

Example startup_fresh : (startup ["srv"] bare_fs).1 = fresh_fs.
Proof. vm_compute. reflexivity. Qed.

(** [makedirs] makes the directories on the way as well. *)
Example makedirs_deep :
  makedirs bare_fs ["srv"; "x"; "y"]
  = (<[ ["srv"; "x"; "y"] := NDir true true true ]>
     (<[ ["srv"; "x"] := NDir true true true ]> bare_fs), None).
Proof. vm_compute. reflexivity. Qed.
